(** * MIDOG++ inference web client and detection pipeline

  A shallow embedding of the analysis client ([app/src/App.tsx]), of the
  image viewer's zoom handlers ([ImageViewer.tsx]) and of the documented
  service contract (README, "API Documentation"), together with a model of
  the tiling / merge pipeline that lives in the Python service. *)

From Stdlib Require Import List String ZArith QArith Bool Lia Lqa.
From Stdlib Require Import DecimalString Sorted Qround Qpower.
From Equations Require Import Equations.

#[local] Set Warnings "-register-all".
Import ListNotations.

Local Open Scope string_scope.
Local Open Scope list_scope.
Local Open Scope Z_scope.

(* ================================================================== *)
(** ** JSON values, as produced by [Response.json()] and consumed by
     [JSON.stringify] *)
(* ================================================================== *)

Module Json.

Inductive json : Type :=
| JNull
| JBool (b : bool)
| JNum (q : Q)
| JStr (s : string)
| JArr (items : list json)
| JObj (fields : list (string * json)).

(** First binding of [k] in an association list (object fields keep
    their insertion order, as in JavaScript). *)
Fixpoint assoc (k : string) (fs : list (string * json)) : option json :=
  match fs with
  | [] => None
  | (k', v) :: fs' => if String.eqb k k' then Some v else assoc k fs'
  end.

(** [j.k]: property read on a value that is not null.  [None] stands for
    [undefined]; primitives and arrays have none of the properties the
    client reads. *)
Definition get (k : string) (j : json) : option json :=
  match j with
  | JObj fs => assoc k fs
  | _ => None
  end.

Definition keys (j : json) : list string :=
  match j with
  | JObj fs => map fst fs
  | _ => []
  end.

Definition has (k : string) (j : json) : bool :=
  match get k j with Some _ => true | None => false end.

(** JavaScript truthiness of a (possibly undefined) JSON value, as used
    by the [||] operator. *)
Definition truthy (v : option json) : bool :=
  match v with
  | None | Some JNull => false
  | Some (JBool b) => b
  | Some (JNum q) => negb (Qeq_bool q 0)
  | Some (JStr s) => negb (String.eqb s "")
  | Some (JArr _) | Some (JObj _) => true
  end.

(** [JSON.stringify({k: v})] followed by parsing on the other side: a
    property whose value is [undefined] is left out of the object. *)
Definition obj1 (k : string) (v : option json) : json :=
  match v with
  | Some j => JObj [(k, j)]
  | None => JObj []
  end.

(** A JSON value stored in a cell of type [T | null]. *)
Definition nullable (j : json) : option json :=
  match j with
  | JNull => None
  | _ => Some j
  end.

End Json.
Import Json.

(* ================================================================== *)
(** ** The analysis client: [App.tsx] *)
(* ================================================================== *)

Module App.

(** The part of a browser [File] that [handleAnalyze] reads. *)
Record File : Type := mkFile {
  name : string;
  type : string;
  size : Z
}.

(** The [useState] cells of the [App] component.  [analysisResult] is
    typed [AnalysisResult | null] in the source; at run time it holds
    whatever JSON value the service returned, [None] standing for
    [null]. *)
Record AppState : Type := mkAppState {
  selectedFile : option File;
  analysisResult : option json;
  isLoading : bool;
  error : option string;
  previewUrl : option string;
  uploadProgress : Z;
  isUploading : bool
}.

Definition setSelectedFile (v : option File) (s : AppState) : AppState :=
  mkAppState v (analysisResult s) (isLoading s) (error s)
             (previewUrl s) (uploadProgress s) (isUploading s).
Definition setAnalysisResult (v : option json) (s : AppState) : AppState :=
  mkAppState (selectedFile s) v (isLoading s) (error s)
             (previewUrl s) (uploadProgress s) (isUploading s).
Definition setIsLoading (v : bool) (s : AppState) : AppState :=
  mkAppState (selectedFile s) (analysisResult s) v (error s)
             (previewUrl s) (uploadProgress s) (isUploading s).
Definition setError (v : option string) (s : AppState) : AppState :=
  mkAppState (selectedFile s) (analysisResult s) (isLoading s) v
             (previewUrl s) (uploadProgress s) (isUploading s).
Definition setPreviewUrl (v : option string) (s : AppState) : AppState :=
  mkAppState (selectedFile s) (analysisResult s) (isLoading s) (error s)
             v (uploadProgress s) (isUploading s).
Definition setUploadProgress (v : Z) (s : AppState) : AppState :=
  mkAppState (selectedFile s) (analysisResult s) (isLoading s) (error s)
             (previewUrl s) v (isUploading s).
Definition setIsUploading (v : bool) (s : AppState) : AppState :=
  mkAppState (selectedFile s) (analysisResult s) (isLoading s) (error s)
             (previewUrl s) (uploadProgress s) v.

(** *** The world outside the component *)

(** A value caught by [catch (err)]: either an [Error] with its message
    or anything else. *)
Inductive thrown : Type :=
| ThrowError (message : string)
| ThrowOther.

(** Outcome of [await response.json()]. *)
Inductive json_result : Type :=
| JsonThrows (t : thrown)
| JsonValue (j : json).

Record Response : Type := mkResponse {
  ok : bool;
  json_body : json_result
}.

(** Outcome of [await fetch(url, {method: 'POST', body})]. *)
Inductive fetch_outcome : Type :=
| FetchRejects (t : thrown)
| FetchResolves (r : Response).

(** The XHR event that settles the upload promise; these are the three
    events on [xhr] the source registers a listener for. *)
Inductive xhr_outcome : Type :=
| XhrLoad (status : Z) (statusText : string)
| XhrError
| XhrTimeout.

(** What the browser and the network answer.  [to_string] is the
    engine's [String(v)] on a value that is not a string, and
    [null_access] the message of the [TypeError] raised by a property
    read on [null]. *)
Record Browser : Type := mkBrowser {
  fetch : string -> json -> fetch_outcome;
  xhr_put : option json -> string -> File -> xhr_outcome;
  to_string : json -> string;
  null_access : string
}.

(** A request that leaves the page. *)
Inductive event : Type :=
| EvFetch (url : string) (body : json)
| EvXhrPut (url : option json) (content_type : string) (file : File).

(** *** A monad for the body of the [try] block: component state, the
    log of requests sent so far, and exceptions *)

Inductive outcome (A : Type) : Type :=
| Done (a : A)
| Raised (t : thrown).
Arguments Done {A} a.
Arguments Raised {A} t.

Definition Flow (A : Type) : Type :=
  AppState -> list event -> outcome A * AppState * list event.

Definition ret {A} (a : A) : Flow A := fun s tr => (Done a, s, tr).

Definition bind {A B} (m : Flow A) (k : A -> Flow B) : Flow B :=
  fun s tr =>
    match m s tr with
    | (Done a, s', tr') => k a s' tr'
    | (Raised t, s', tr') => (Raised t, s', tr')
    end.

Definition throw {A} (t : thrown) : Flow A := fun s tr => (Raised t, s, tr).

Definition modify (f : AppState -> AppState) : Flow unit :=
  fun s tr => (Done tt, f s, tr).

Definition emit (e : event) : Flow unit :=
  fun s tr => (Done tt, s, tr ++ [e]).

Declare Scope flow_scope.
Delimit Scope flow_scope with flow.
Notation "x <- m ;; k" := (bind m (fun x => k))
  (at level 61, m at next level, right associativity) : flow_scope.
Notation "m ;; k" := (bind m (fun _ => k))
  (at level 61, right associativity) : flow_scope.
Local Open Scope flow_scope.

Section Client.

Variable br : Browser.

(** [await fetch(url, {method: 'POST', headers, body: JSON.stringify(body)})] *)
Definition do_fetch (url : string) (body : json) : Flow Response :=
  emit (EvFetch url body) ;;
  match fetch br url body with
  | FetchRejects t => throw t
  | FetchResolves r => ret r
  end.

(** [await response.json()] *)
Definition do_json (r : Response) : Flow json :=
  match json_body r with
  | JsonThrows t => throw t
  | JsonValue j => ret j
  end.

(** [j.k] for a [j] that may be [null]. *)
Definition prop (k : string) (j : json) : Flow (option json) :=
  match j with
  | JNull => throw (ThrowError (null_access br))
  | _ => ret (get k j)
  end.

(** [new Error(errorData.detail || fallback).message] *)
Definition detail_or (detail : option json) (fallback : string) : string :=
  if truthy detail then
    match detail with
    | Some (JStr s) => s
    | Some v => to_string br v
    | None => fallback
    end
  else fallback.

(** [selectedFile.type || 'image/jpeg'] *)
Definition content_type_of (file : File) : string :=
  if String.eqb (type file) "" then "image/jpeg" else type file.

Definition string_of_Z (z : Z) : string :=
  NilZero.string_of_int (Z.to_int z).

(** The promise wrapped around the [XMLHttpRequest]: resolved by a
    [load] event with status 200, rejected by every other settling
    event.  The [progress] listeners only write [uploadProgress],
    which is overwritten right after the promise settles. *)
Definition do_upload (url : option json) (file : File) : Flow unit :=
  emit (EvXhrPut url (content_type_of file) file) ;;
  match xhr_put br url (content_type_of file) file with
  | XhrLoad status statusText =>
      if status =? 200 then modify (setUploadProgress 70)
      else throw (ThrowError
             ("S3 upload failed: " ++ string_of_Z status ++ " " ++ statusText)%string)
  | XhrError => throw (ThrowError "S3 upload network error")
  | XhrTimeout => throw (ThrowError "S3 upload timeout")
  end.

Definition presign_url : string := "/generate-presigned-url".
Definition analyze_url : string := "/analyze-s3".

Definition presign_body (file : File) : json :=
  JObj [("filename", JStr (name file));
        ("content_type", JStr (content_type_of file))].

(** Body of the [try] block of [handleAnalyze]. *)
Definition try_block (file : File) : Flow unit :=
  (* Step 1: Get presigned URL from backend *)
  modify (setUploadProgress 5) ;;
  presignedResponse <- do_fetch presign_url (presign_body file) ;;
  (if negb (ok presignedResponse) then
     errorData <- do_json presignedResponse ;;
     detail <- prop "detail" errorData ;;
     throw (ThrowError (detail_or detail "Failed to get upload URL"))
   else ret tt) ;;
  data <- do_json presignedResponse ;;
  presigned_url <- prop "presigned_url" data ;;
  s3_key <- prop "s3_key" data ;;
  modify (setUploadProgress 10) ;;
  (* Step 2: Upload directly to S3 using presigned URL *)
  do_upload presigned_url file ;;
  modify (setIsUploading false) ;;
  modify (setUploadProgress 75) ;;
  (* Step 3: Request analysis from backend using S3 key *)
  analysisResponse <- do_fetch analyze_url (obj1 "s3_key" s3_key) ;;
  (if negb (ok analysisResponse) then
     errorData <- do_json analysisResponse ;;
     detail <- prop "detail" errorData ;;
     throw (ThrowError (detail_or detail "Analysis failed"))
   else ret tt) ;;
  result <- do_json analysisResponse ;;
  modify (setUploadProgress 100) ;;
  modify (setAnalysisResult (nullable result)).

(** [err instanceof Error ? err.message : 'An unknown error occurred'] *)
Definition message_of (t : thrown) : string :=
  match t with
  | ThrowError m => m
  | ThrowOther => "An unknown error occurred"
  end.

Definition finally_block (s : AppState) : AppState :=
  setUploadProgress 0 (setIsUploading false (setIsLoading false s)).

(** [handleAnalyze]: returns the component state once the async
    function has settled and the requests it sent, in order. *)
Definition handleAnalyze (s : AppState) : AppState * list event :=
  match selectedFile s with
  | None => (setError (Some "Please select an image first") s, [])
  | Some file =>
      let s0 := setError None
                  (setUploadProgress 0
                     (setIsUploading true (setIsLoading true s))) in
      match try_block file s0 [] with
      | (Done _, s1, tr) => (finally_block s1, tr)
      | (Raised t, s1, tr) =>
          (finally_block (setError (Some (message_of t)) s1), tr)
      end
  end.

End Client.

(** *** The three requests and what the outside world answers to them *)

Definition presign_request (file : File) : event :=
  EvFetch presign_url (presign_body file).

Definition upload_request (file : File) (data : json) : event :=
  EvXhrPut (get "presigned_url" data) (content_type_of file) file.

Definition analyze_request (data : json) : event :=
  EvFetch analyze_url (obj1 "s3_key" (get "s3_key" data)).

(** The body of the answer to step 1 when the upload location is
    obtained: the request resolves, with an ok status and a JSON body
    that can be destructured. *)
Definition upload_location (br : Browser) (file : File) : option json :=
  match fetch br presign_url (presign_body file) with
  | FetchRejects _ => None
  | FetchResolves r =>
      if ok r then
        match json_body r with
        | JsonThrows _ | JsonValue JNull => None
        | JsonValue data => Some data
        end
      else None
  end.

(** The upload of step 2 ends with a [load] event of status 200. *)
Definition upload_completed (br : Browser) (file : File) (data : json) : bool :=
  match xhr_put br (get "presigned_url" data) (content_type_of file) file with
  | XhrLoad status _ => status =? 200
  | XhrError | XhrTimeout => false
  end.

(** The body of the answer to step 3 when the analysis call resolves
    with an ok status and a JSON body. *)
Definition analysis_reply (br : Browser) (data : json) : option json :=
  match fetch br analyze_url (obj1 "s3_key" (get "s3_key" data)) with
  | FetchRejects _ => None
  | FetchResolves r =>
      if ok r then
        match json_body r with
        | JsonThrows _ => None
        | JsonValue result => Some result
        end
      else None
  end.

(** Some step of the flow fails. *)
Definition step_fails (br : Browser) (file : File) : Prop :=
  upload_location br file = None
  \/ exists data,
       upload_location br file = Some data
       /\ (upload_completed br file data = false
           \/ analysis_reply br data = None).

(** The three ways a run of the [try] block can go wrong, and the way it
    goes right: what [handleAnalyze] returns in each case. *)
Inductive run (br : Browser) (s : AppState) (file : File)
  : AppState -> list event -> Prop :=
| RunNoLocation s' m :
    upload_location br file = None ->
    analysisResult s' = analysisResult s ->
    error s' = Some m ->
    run br s file s' [presign_request file]
| RunUploadFailed data s' m :
    upload_location br file = Some data ->
    upload_completed br file data = false ->
    analysisResult s' = analysisResult s ->
    error s' = Some m ->
    run br s file s' [presign_request file; upload_request file data]
| RunAnalysisFailed data s' m :
    upload_location br file = Some data ->
    upload_completed br file data = true ->
    analysis_reply br data = None ->
    analysisResult s' = analysisResult s ->
    error s' = Some m ->
    run br s file s'
        [presign_request file; upload_request file data; analyze_request data]
| RunSucceeded data result s' :
    upload_location br file = Some data ->
    upload_completed br file data = true ->
    analysis_reply br data = Some result ->
    analysisResult s' = nullable result ->
    error s' = None ->
    run br s file s'
        [presign_request file; upload_request file data; analyze_request data].

Definition is_fetch_to (target : string) (e : event) : bool :=
  match e with
  | EvFetch url _ => String.eqb url target
  | EvXhrPut _ _ _ => false
  end.

Definition is_upload (e : event) : bool :=
  match e with
  | EvFetch _ _ => false
  | EvXhrPut _ _ _ => true
  end.

(** How often a kind of request occurs in a log. *)
Definition times (kind : event -> bool) (tr : list event) : nat :=
  List.length (filter kind tr).

(** The four parameters of PipelineConfig, as properties of a request
    body. *)
Definition config_fields : list string :=
  ["window_size"; "overlap"; "iou_threshold"; "confidence_floor"].

Definition carries_config (body : json) : bool :=
  forallb (fun k => has k body) config_fields.

(** *** The declared type of the analysis response *)

Definition is_number (j : json) : bool :=
  match j with JNum _ => true | _ => false end.
Definition is_string (j : json) : bool :=
  match j with JStr _ => true | _ => false end.
Definition is_object (j : json) : bool :=
  match j with JObj _ => true | _ => false end.
Definition is_array_of (elt : json -> bool) (j : json) : bool :=
  match j with JArr items => forallb elt items | _ => false end.

(** A property [k: T] and a property [k?: T] of an interface. *)
Definition required (k : string) (ty : json -> bool) (j : json) : bool :=
  match get k j with Some v => ty v | None => false end.
Definition optional (k : string) (ty : json -> bool) (j : json) : bool :=
  match get k j with Some v => ty v | None => true end.

(** [bbox: [number, number, number, number]] *)
Definition is_bbox (j : json) : bool :=
  match j with
  | JArr [JNum _; JNum _; JNum _; JNum _] => true
  | _ => false
  end.

(** [interface Prediction] *)
Definition is_Prediction (j : json) : bool :=
  is_object j
  && required "bbox" is_bbox j
  && required "confidence" is_number j
  && required "class_id" is_number j
  && required "class_name" is_string j.

(** [interface ProcessingInfo] *)
Definition is_ProcessingInfo (j : json) : bool :=
  is_object j
  && required "original_size" is_string j
  && optional "original_format" is_string j
  && required "method" is_string j
  && required "window_size" is_string j.

(** [interface AnalysisResult]: structural conformance of a JSON value
    (further properties are allowed, the declared ones are checked). *)
Definition is_AnalysisResult (j : json) : bool :=
  is_object j
  && required "predictions" (is_array_of is_Prediction) j
  && required "image" is_string j
  && required "image_width" is_number j
  && required "image_height" is_number j
  && required "total_detections" is_number j
  && optional "processing_info" is_ProcessingInfo j.

(** The "Analysis Response Format" example of the README, with numbers
    filled in for the symbolic [x1, y1, x2, y2]. *)
Definition readme_response : json :=
  JObj [
    ("predictions", JArr [
       JObj [("bbox", JArr [JNum 100; JNum 120; JNum 140; JNum 160]);
             ("confidence", JNum 0.87);
             ("class_id", JNum 0);
             ("class_name", JStr "mitotic_figure")]]);
    ("image", JStr "data:image/png;base64,iVBORw0KGgoAAAANSUhEUgA...");
    ("image_width", JNum 1024);
    ("image_height", JNum 768);
    ("total_detections", JNum 3);
    ("processing_info", JObj [
       ("original_size", JStr "1024x768");
       ("original_format", JStr "JPG");
       ("method", JStr "sliding_window");
       ("window_size", JStr "640x640");
       ("source", JStr "s3")])
  ].

(** The Result of the design document, read as a closed shape: the top
    level has exactly the five listed properties and [processing_info]
    has [method], [window_size] and at most [original_format] besides. *)
Definition mem (k : string) (ks : list string) : bool :=
  existsb (String.eqb k) ks.
Definition same_keys (ks1 ks2 : list string) : bool :=
  forallb (fun k => mem k ks2) ks1 && forallb (fun k => mem k ks1) ks2.

Definition spec_Result_fields : list string :=
  ["predictions"; "image_width"; "image_height"; "total_detections";
   "processing_info"].

Definition spec_Result_shape (j : json) : bool :=
  same_keys (keys j) spec_Result_fields
  && match get "processing_info" j with
     | Some p =>
         has "method" p && has "window_size" p
         && forallb (fun k => mem k ["method"; "window_size"; "original_format"])
                    (keys p)
     | None => false
     end.

(** *** Sample runs *)

Definition sample_file : File := mkFile "he_slide_image.jpg" "image/jpeg" 2048.

Definition sample_state : AppState :=
  mkAppState (Some sample_file) None false None (Some "blob:preview") 0 false.

Definition sample_location : json :=
  JObj [("presigned_url",
         JStr "https://s3.amazonaws.com/bucket/uploads/uuid-filename.jpg?...");
        ("s3_key", JStr "uploads/uuid-filename.jpg");
        ("expires_in", JNum 3600)].

(** A service that answers as the README documents. *)
Definition sample_browser : Browser :=
  mkBrowser
    (fun url _ =>
       if String.eqb url presign_url
       then FetchResolves (mkResponse true (JsonValue sample_location))
       else FetchResolves (mkResponse true (JsonValue readme_response)))
    (fun _ _ _ => XhrLoad 200 "OK")
    (fun _ => "[object Object]")
    "Cannot read properties of null".

(** The same service behind a storage bucket that refuses the upload. *)
Definition refusing_browser : Browser :=
  mkBrowser (fetch sample_browser)
            (fun _ _ _ => XhrLoad 403 "Forbidden")
            (to_string sample_browser) (null_access sample_browser).

(** The label shown next to "Processing Method:". *)
Definition methodLabel (method : string) : string :=
  if String.eqb method "sliding_window" then "Sliding Window"
  else "Direct Processing".

End App.

(* ================================================================== *)
(** ** The detection pipeline of the service

    The Python service ([server.py]) is not part of the sources at hand;
    only its client and its documented responses are.  The definitions of
    this module follow the design document, section by section. *)
(* ================================================================== *)

Module Core.

(** Modelled from the spec: the Image of the data model (section 3), an
    opaque pixel buffer with integer dimensions; the service code that
    decodes it is missing. *)
Record Image : Type := mkImage {
  width : Z;
  height : Z;
  original_format : option string;
  pixels : list Z
}.

(** Modelled from the spec: Window (section 3); the tiler of the service
    is missing. *)
Record Window : Type := mkWindow {
  origin_x : Z;
  origin_y : Z;
  win_width : Z;
  win_height : Z
}.

(** Modelled from the spec: Detection (section 3), with exact rationals
    for coordinates and confidence. *)
Record Detection : Type := mkDetection {
  x1 : Q;
  y1 : Q;
  x2 : Q;
  y2 : Q;
  confidence : Q;
  class_id : Z;
  class_name : string
}.

(** Modelled from the spec: the outcome of SizeClassifier (section 4.1). *)
Inductive Method : Type := Direct | Tiled.

(** Modelled from the spec: [classify] (section 4.1), missing with the
    service: Direct when both dimensions fit the window size. *)
Definition classify (image : Image) (window_size : Z) : Method :=
  if (width image <=? window_size) && (height image <=? window_size)
  then Direct else Tiled.

(** Modelled from the spec: the two values of [processing_info.method]
    (section 6). *)
Definition method_name (m : Method) : string :=
  match m with
  | Direct => "direct"
  | Tiled => "sliding_window"
  end.

(** Modelled from the spec: the error taxonomy of section 7, as far as
    the tiler raises it. *)
Inductive error : Type := ConfigError.

(** Modelled from the spec: a component either returns or fails with one
    structured error (section 7). *)
Inductive result (A : Type) : Type :=
| Ok (a : A)
| Err (e : error).
Arguments Ok {A} a.
Arguments Err {A} e.

(** Modelled from the spec: the extent of a window along one side of the
    image: the window size, and the whole side where the image is shorter
    than the window, since a Window is fully contained in the image
    (section 3) and nothing is padded (section 4.2). *)
Definition extent (dim window_size : Z) : Z := Z.min window_size dim.

(** Modelled from the spec: the clamp-back rule of the Tiler (section
    4.2): a regular origin whose window would leave the image is pulled
    back so that the window ends at the border of the image; on a side of
    at least the window size that is origin + window_size = dimension. *)
Definition pull_back (dim window_size o : Z) : Z :=
  if dim <? o + extent dim window_size
  then dim - extent dim window_size else o.

(** Modelled from the spec: the walk over the regular origins
    [o, o + stride, ...] of one axis (section 4.2), as long as the origin
    lies in the image; [fuel] bounds the number of steps. *)
Fixpoint walk (fuel : nat) (dim window_size stride o : Z) : list Z :=
  match fuel with
  | O => []
  | S fuel' =>
      if o <? dim
      then pull_back dim window_size o
           :: walk fuel' dim window_size stride (o + stride)
      else []
  end.

(** Modelled from the spec: the origins of one axis; a stride of at
    least one pixel needs no more than [dim] steps. *)
Definition axis_origins (dim window_size stride : Z) : list Z :=
  walk (Z.to_nat dim) dim window_size stride 0.

(** Modelled from the spec: [tile] (section 4.2), missing with the
    service.  Rows are walked top to bottom, each row left to right; a
    tiled window is [window_size] long on each side, and as long as the
    image on a side where the image is shorter. *)
Definition tile (image : Image) (window_size overlap : Z)
  : result (list Window) :=
  if (0 <=? overlap) && (overlap <? window_size) then
    match classify image window_size with
    | Direct => Ok [mkWindow 0 0 (width image) (height image)]
    | Tiled =>
        let stride := window_size - overlap in
        Ok (flat_map
              (fun oy =>
                 map (fun ox =>
                        mkWindow ox oy (extent (width image) window_size)
                                 (extent (height image) window_size))
                     (axis_origins (width image) window_size stride))
              (axis_origins (height image) window_size stride))
    end
  else Err ConfigError.

(** The pixel [(x, y)] lies in the window. *)
Definition covers (w : Window) (x y : Z) : Prop :=
  origin_x w <= x < origin_x w + win_width w
  /\ origin_y w <= y < origin_y w + win_height w.

(** The window lies in the image. *)
Definition inside (image : Image) (w : Window) : Prop :=
  0 <= origin_x w /\ origin_x w + win_width w <= width image
  /\ 0 <= origin_y w /\ origin_y w + win_height w <= height image.

Definition origin (w : Window) : Z * Z := (origin_x w, origin_y w).

(** An image that is narrower than a window of 640 and much taller. *)
Definition narrow_image : Image := mkImage 100 2000 None [].

(** The image of the end-to-end scenario (section 8). *)
Definition image_1280 : Image := mkImage 1280 1280 (Some "PNG") [].

(** The four windows the end-to-end scenario names. *)
Definition scenario_windows : list Window :=
  [mkWindow 0 0 640 640; mkWindow 576 0 640 640;
   mkWindow 0 576 640 640; mkWindow 576 576 640 640].

(** *** CrossTileMerger *)

(** Minimum and maximum of two rationals. *)
Definition qmin (a b : Q) : Q := if Qle_bool a b then a else b.
Definition qmax (a b : Q) : Q := if Qle_bool a b then b else a.

(** Modelled from the spec: area of an axis-aligned box (section 4.5). *)
Definition area (d : Detection) : Q := ((x2 d - x1 d) * (y2 d - y1 d))%Q.

(** Modelled from the spec: area of the intersection of two boxes, zero
    when they are disjoint. *)
Definition intersection (a b : Detection) : Q :=
  (qmax 0 (qmin (x2 a) (x2 b) - qmax (x1 a) (x1 b))
   * qmax 0 (qmin (y2 a) (y2 b) - qmax (y1 a) (y1 b)))%Q.

(** Modelled from the spec: IoU = area(intersection) / area(union), and
    0 when the union has area zero (section 4.5, step 3). *)
Definition iou (a b : Detection) : Q :=
  let i := intersection a b in
  let u := (area a + area b - i)%Q in
  if Qeq_bool u 0 then 0%Q else (i / u)%Q.

(** Modelled from the spec: the test of step 3.  [e] survives next to the
    kept detection [d] when its IoU with [d] does not exceed the
    threshold. *)
Definition survives (iou_threshold : Q) (d e : Detection) : bool :=
  Qle_bool (iou d e) iou_threshold.

(** [a < b] on rationals, as a boolean. *)
Definition qlt (a b : Q) : bool := negb (Qle_bool b a).

(** Modelled from the spec: the sort key of step 2: confidence
    descending, ties by ascending [x1], then ascending [y1].  [before a b]
    says that [a] comes strictly before [b]. *)
Definition before (a b : Detection) : bool :=
  qlt (confidence b) (confidence a)
  || (Qeq_bool (confidence a) (confidence b)
      && (qlt (x1 a) (x1 b)
          || (Qeq_bool (x1 a) (x1 b) && qlt (y1 a) (y1 b)))).

(** Modelled from the spec: the sort of step 2, as a stable insertion
    sort by that key. *)
Fixpoint insert (d : Detection) (l : list Detection) : list Detection :=
  match l with
  | [] => [d]
  | e :: l' => if before e d then e :: insert d l' else d :: e :: l'
  end.

Fixpoint sort (l : list Detection) : list Detection :=
  match l with
  | [] => []
  | d :: l' => insert d (sort l')
  end.

(** Modelled from the spec: greedy suppression within one class (steps 3
    and 4): keep the first remaining detection, discard the remaining
    ones whose IoU with it exceeds the threshold, repeat. *)
Equations? nms (iou_threshold : Q) (l : list Detection) : list Detection
  by wf (List.length l) lt :=
nms iou_threshold [] := [];
nms iou_threshold (d :: rest) :=
  d :: nms iou_threshold (filter (survives iou_threshold d) rest).
Proof.
  pose proof (filter_length_le (survives iou_threshold d) rest). simpl. lia.
Qed.

(** Modelled from the spec: the partition of step 1; [d] belongs to
    class [c]. *)
Definition in_class (c : Z) (d : Detection) : bool := class_id d =? c.

(** Modelled from the spec: the classes present in the input (step 1),
    in order of first appearance. *)
Fixpoint class_ids (l : list Detection) : list Z :=
  match l with
  | [] => []
  | d :: l' =>
      class_id d :: filter (fun c => negb (c =? class_id d)) (class_ids l')
  end.

(** Modelled from the spec: [merge] (section 4.5), missing with the
    service: class-aware greedy NMS, the kept detections of the classes
    concatenated. *)
Definition merge (detections : list Detection) (iou_threshold : Q)
  : list Detection :=
  flat_map
    (fun c => nms iou_threshold (sort (filter (in_class c) detections)))
    (class_ids detections).

(** Two detections of one object seen from two windows (IoU 0.85), and a
    third one elsewhere. *)
Definition strong_box : Detection :=
  mkDetection 600 600 700 700 0.9 0 "mitotic_figure".
Definition weak_box : Detection :=
  mkDetection 600 600 700 685 0.6 0 "mitotic_figure".
Definition far_box : Detection :=
  mkDetection 900 900 1000 1000 0.7 0 "mitotic_figure".

(** The detections [merge] keeps for class [c]. *)
Definition kept (iou_threshold : Q) (detections : list Detection) (c : Z)
  : list Detection :=
  nms iou_threshold (sort (filter (in_class c) detections)).

(** [a] is not after [b] in the order of step 2. *)
Definition not_after (a b : Detection) : Prop := before b a = false.

(** No detection of the sequence is suppressed by an earlier one. *)
Fixpoint independent (iou_threshold : Q) (l : list Detection) : Prop :=
  match l with
  | [] => True
  | d :: rest =>
      Forall (fun e => survives iou_threshold d e = true) rest
      /\ independent iou_threshold rest
  end.

(** *** ResultAssembler *)

(** Modelled from the spec: provenance metadata of a Result (sections
    4.6 and 6). *)
Record ProcessingInfo : Type := mkProcessingInfo {
  method : string;
  window_size : string;
  info_original_format : option string
}.

(** Modelled from the spec: Result (section 4.6). *)
Record Result : Type := mkResult {
  predictions : list Detection;
  image_width : Z;
  image_height : Z;
  total_detections : Z;
  processing_info : ProcessingInfo
}.

Definition string_of_Z (z : Z) : string :=
  NilZero.string_of_int (Z.to_int z).

(** Modelled from the spec: [assemble] (section 4.6), missing with the
    service; [window_size] is rendered as "WxH". *)
Definition assemble (image : Image) (detection_set : list Detection)
    (m : Method) (ws : Z) : Result :=
  mkResult detection_set (width image) (height image)
           (Z.of_nat (List.length detection_set))
           (mkProcessingInfo (method_name m)
                             (string_of_Z ws ++ "x" ++ string_of_Z ws)%string
                             (original_format image)).

End Core.

(* ================================================================== *)
(** ** The zoom handlers of the image viewer: [ImageViewer.tsx] *)
(* ================================================================== *)

Module Viewer.

(** A JavaScript number: [NaN], the two infinities, or a finite value.
    Finite values are exact rationals; rounding and the sign of zero are
    left out. *)
Inductive num : Type :=
| NaN
| PInf
| NInf
| Fin (q : Q).

(** [a * b] *)
Definition mul (a b : num) : num :=
  match a, b with
  | NaN, _ | _, NaN => NaN
  | Fin p, Fin q => Fin (p * q)
  | Fin p, PInf | PInf, Fin p =>
      match (p ?= 0)%Q with Gt => PInf | Lt => NInf | Eq => NaN end
  | Fin p, NInf | NInf, Fin p =>
      match (p ?= 0)%Q with Gt => NInf | Lt => PInf | Eq => NaN end
  | PInf, PInf | NInf, NInf => PInf
  | PInf, NInf | NInf, PInf => NInf
  end.

(** [a / b] *)
Definition div (a b : num) : num :=
  match a, b with
  | NaN, _ | _, NaN => NaN
  | Fin p, Fin q =>
      if Qeq_bool q 0
      then match (p ?= 0)%Q with Gt => PInf | Lt => NInf | Eq => NaN end
      else Fin (p / q)
  | Fin _, PInf | Fin _, NInf => Fin 0
  | PInf, Fin q => match (q ?= 0)%Q with Lt => NInf | _ => PInf end
  | NInf, Fin q => match (q ?= 0)%Q with Lt => PInf | _ => NInf end
  | PInf, PInf | PInf, NInf | NInf, PInf | NInf, NInf => NaN
  end.

(** [Math.min(a, b)] and [Math.max(a, b)]: [NaN] as soon as one argument
    is. *)
Definition Math_min (a b : num) : num :=
  match a, b with
  | NaN, _ | _, NaN => NaN
  | NInf, _ | _, NInf => NInf
  | PInf, x | x, PInf => x
  | Fin p, Fin q => Fin (if Qle_bool p q then p else q)
  end.

Definition Math_max (a b : num) : num :=
  match a, b with
  | NaN, _ | _, NaN => NaN
  | PInf, _ | _, PInf => PInf
  | NInf, x | x, NInf => x
  | Fin p, Fin q => Fin (if Qle_bool p q then q else p)
  end.

(** [a > b] *)
Definition gt (a b : num) : bool :=
  match a, b with
  | NaN, _ | _, NaN => false
  | PInf, PInf => false
  | PInf, _ => true
  | _, PInf => false
  | NInf, _ => false
  | Fin _, NInf => true
  | Fin p, Fin q => negb (Qle_bool p q)
  end.

(** The integer part of the square root of [n / d] scaled by [2 ^ k]. *)
Definition scaled_root (n d k : Z) : Z :=
  if 0 <=? k then Z.sqrt (n * 4 ^ k / d) else Z.sqrt (n / (d * 4 ^ (- k))).

(** [m] is the square root of [n / d] scaled by [2 ^ k], exactly. *)
Definition root_is_exact (n d k m : Z) : bool :=
  if 0 <=? k then m * m * d =? n * 4 ^ k else m * m * d * 4 ^ (- k) =? n.

(** [Math.sqrt] on a finite value that is not negative: the square root
    rounded to the nearest number with 53 significant bits, ties to the
    even one, which is how a JavaScript number holds it (the range of the
    exponent is not modelled).  [m] is the root with 54 significant bits,
    cut off: 53 bits and a rounding bit.  The result is exact whenever
    the root has at most 53 significant bits, and equal rationals have
    the same result. *)
Definition Math_sqrt (q : Q) : Q :=
  match Qnum (Qred q) with
  | Zpos n =>
      let d := Zpos (Qden (Qred q)) in
      let k0 := 53 - (Z.log2 (Zpos n) - Z.log2 d) / 2 in
      let k := if scaled_root (Zpos n) d k0 <? 2 ^ 53 then k0 + 1 else k0 in
      let m := scaled_root (Zpos n) d k in
      let half := m / 2 in
      let up :=
        if Z.odd m
        then if root_is_exact (Zpos n) d k m then Z.odd half else true
        else false in
      Qred (inject_Z (if up then half + 1 else half) * 2 ^ (1 - k))
  | _ => 0
  end.

(** [zoomIn] and [zoomOut]: the updater passed to [setScale]. *)
Definition zoomIn (prev : num) : num := Math_min (mul prev (Fin 1.5)) (Fin 8).

Definition zoomOut (prev : num) : num := Math_max (div prev (Fin 1.5)) (Fin 0.1).

(** [handleWheel]: the value passed to [setScale]. *)
Definition handleWheel (deltaY : num) (scale : num) : num :=
  let delta := if gt deltaY (Fin 0) then Fin 0.9 else Fin 1.1 in
  Math_min (Math_max (mul scale delta) (Fin 0.1)) (Fin 8).

Record Touch : Type := mkTouch {
  clientX : Q;
  clientY : Q
}.

(** The two [data-] attributes kept on the container during a pinch.
    They hold [n.toString()], which is never the empty string and which
    [parseFloat] reads back as [n]; the number itself is stored here. *)
Record Dataset : Type := mkDataset {
  initialPinchDistance : option num;
  initialScale : option num
}.

Record View : Type := mkView {
  scale : num;
  dataset : Dataset
}.

(** Distance between the two touches of a pinch. *)
Definition pinch_distance (touch1 touch2 : Touch) : Q :=
  Math_sqrt ((clientX touch2 - clientX touch1) ^ 2
             + (clientY touch2 - clientY touch1) ^ 2).

(** [handleTouchZoom], without the update of [position]. *)
Definition handleTouchZoom (touches : list Touch) (v : View) : View :=
  match touches with
  | [touch1; touch2] =>
      (* Calculate distance between touches *)
      let distance := Fin (pinch_distance touch1 touch2) in
      match initialPinchDistance (dataset v) with
      | None =>
          (* Store initial distance for comparison *)
          mkView (scale v) (mkDataset (Some distance) (Some (scale v)))
      | Some initialDistance =>
          let initialScale :=
            match initialScale (dataset v) with
            | Some s => s
            | None => Fin 1
            end in
          let scaleChange := div distance initialDistance in
          let newScale :=
            Math_min (Math_max (mul initialScale scaleChange) (Fin 0.1))
                     (Fin 8) in
          mkView newScale (dataset v)
      end
  | _ => v
  end.

(** [handleTouchZoomEnd] *)
Definition handleTouchZoomEnd (v : View) : View :=
  mkView (scale v) (mkDataset None None).

(** The scale is a finite number of the interval [0.1, 8]. *)
Definition in_range (s : num) : Prop :=
  match s with
  | Fin q => (0.1 <= q /\ q <= 8)%Q
  | _ => False
  end.

(** The view of a freshly mounted viewer: [useState(0.5)], no pinch in
    progress. *)
Definition initial_view : View := mkView (Fin 0.5) (mkDataset None None).

(** Two touch points at the same place. *)
Definition coincident_touches : list Touch := [mkTouch 3 5; mkTouch 3 5].

End Viewer.

(* ================================================================== *)
(** ** The rest of the [App] component: file selection, reset, and what
       the page shows *)
(* ================================================================== *)

Module AppUi.
Import App.

(** [handleFileSelect]: [file] is [event.target.files?.[0]] and
    [createObjectURL] the browser's [URL.createObjectURL]. *)
Definition handleFileSelect (createObjectURL : File -> string)
    (file : option File) (s : AppState) : AppState :=
  match file with
  | Some f =>
      setPreviewUrl (Some (createObjectURL f))
        (setAnalysisResult None
           (setError None (setSelectedFile (Some f) s)))
  | None => s
  end.

(** [resetAnalysis]; the file input it also clears is not part of the
    state. *)
Definition resetAnalysis (s : AppState) : AppState :=
  setIsUploading false
    (setUploadProgress 0
       (setPreviewUrl None
          (setError None
             (setAnalysisResult None (setSelectedFile None s))))).

(** The message an upload that does not end with status 200 raises. *)
Definition upload_error (outcome : xhr_outcome) : string :=
  match outcome with
  | XhrLoad status statusText =>
      ("S3 upload failed: " ++ string_of_Z status ++ " " ++ statusText)%string
  | XhrError => "S3 upload network error"
  | XhrTimeout => "S3 upload timeout"
  end.

(** A service whose first answer is a refusal with a [detail]. *)
Definition denying_browser : Browser :=
  mkBrowser
    (fun _ _ =>
       FetchResolves
         (mkResponse false
            (JsonValue (JObj [("detail", JStr "S3 is not configured")]))))
    (xhr_put sample_browser)
    (to_string sample_browser) (null_access sample_browser).

(** A browser that is offline: every [fetch] rejects. *)
Definition offline_browser : Browser :=
  mkBrowser (fun _ _ => FetchRejects (ThrowError "Failed to fetch"))
            (xhr_put sample_browser)
            (to_string sample_browser) (null_access sample_browser).

(** The documented service with an analysis endpoint that refuses
    without a [detail]. *)
Definition failing_analysis_browser : Browser :=
  mkBrowser
    (fun url _ =>
       if String.eqb url presign_url
       then FetchResolves (mkResponse true (JsonValue sample_location))
       else FetchResolves (mkResponse false (JsonValue (JObj []))))
    (xhr_put sample_browser)
    (to_string sample_browser) (null_access sample_browser).

(** A service that refuses the first request with an empty list as
    [detail]; [String([])] is the empty string. *)
Definition empty_detail_browser : Browser :=
  mkBrowser
    (fun _ _ =>
       FetchResolves
         (mkResponse false (JsonValue (JObj [("detail", JArr [])]))))
    (xhr_put sample_browser)
    (fun v => match v with JArr [] => "" | _ => "[object Object]" end)
    (null_access sample_browser).

(** The message that reaches [catch] from the branch for an answer that
    is not ok: reading the body may throw, the body may be [null], and
    otherwise it is [new Error(errorData.detail || fallback)]. *)
Definition refusal_message (br : Browser) (r : Response) (fallback : string)
  : string :=
  match json_body r with
  | JsonThrows t => message_of t
  | JsonValue JNull => null_access br
  | JsonValue errorData => detail_or br (get "detail" errorData) fallback
  end.

(** The message of a failing upload, if it fails. *)
Definition upload_failure (br : Browser) (file : File) (data : json)
  : option string :=
  if upload_completed br file data then None
  else Some (upload_error
               (xhr_put br (get "presigned_url" data) (content_type_of file)
                        file)).

(** The message of a failing analysis call, if it fails. *)
Definition analysis_failure (br : Browser) (data : json) : option string :=
  match fetch br analyze_url (obj1 "s3_key" (get "s3_key" data)) with
  | FetchRejects t => Some (message_of t)
  | FetchResolves r =>
      if ok r then
        match json_body r with
        | JsonThrows t => Some (message_of t)
        | JsonValue _ => None
        end
      else Some (refusal_message br r "Analysis failed")
  end.

(** The message [catch] hands to [setError], step by step through the
    [try] block: the first step that fails decides it.  [None] when no
    step fails. *)
Definition failure_message (br : Browser) (file : File) : option string :=
  match fetch br presign_url (presign_body file) with
  | FetchRejects t => Some (message_of t)
  | FetchResolves r =>
      if ok r then
        match json_body r with
        | JsonThrows t => Some (message_of t)
        | JsonValue JNull => Some (null_access br)
        | JsonValue data =>
            match upload_failure br file data with
            | Some m => Some m
            | None => analysis_failure br data
            end
        end
      else Some (refusal_message br r "Failed to get upload URL")
  end.

(** Truthiness of a string cell: [null] and the empty string are falsy. *)
Definition truthy_string (v : option string) : bool :=
  match v with
  | Some str => negb (String.eqb str "")
  | None => false
  end.

Definition is_some {A : Type} (v : option A) : bool :=
  match v with Some _ => true | None => false end.

(** [disabled={!selectedFile || isLoading || isUploading}] of the
    "Start AI Analysis" button. *)
Definition analyze_disabled (s : AppState) : bool :=
  negb (is_some (selectedFile s)) || isLoading s || isUploading s.

(** [(isUploading || (uploadProgress > 0 && isLoading)) && ...]: the
    progress panel is rendered. *)
Definition progress_visible (s : AppState) : bool :=
  isUploading s || ((uploadProgress s >? 0) && isLoading s).

(** [previewUrl && !analysisResult && ...]: the preview is rendered. *)
Definition preview_visible (s : AppState) : bool :=
  truthy_string (previewUrl s) && negb (truthy (analysisResult s)).

(** [analysisResult && ...]: the guard of the results section.  Where
    it holds the section is evaluated, and that reads
    [analysisResult.predictions] and the [bbox] and [confidence] of each
    prediction: for a stored value of the declared type this gives the
    section, see [renderImageWithBoundingBoxes]; for a truthy value
    without these properties the evaluation throws instead. *)
Definition results_visible (s : AppState) : bool :=
  truthy (analysisResult s).

(** [error && ...]: the error banner is rendered. *)
Definition error_visible (s : AppState) : bool :=
  truthy_string (error s).

(** [(selectedFile || analysisResult) && ...]: the reset button is
    rendered. *)
Definition reset_visible (s : AppState) : bool :=
  is_some (selectedFile s) || truthy (analysisResult s).

(** [Math.round] on a finite value: the nearest integer, halves up. *)
Definition Math_round (q : Q) : Z := Qfloor (q + (1 # 2)).

(** The [progress] listener of the upload: the value passed to
    [setUploadProgress], when there is one.  With [total] zero the
    quotient is not a finite number and no integer is produced. *)
Definition progress_percent (lengthComputable : bool) (loaded total : Q)
  : option Z :=
  if lengthComputable then
    if Qeq_bool total 0 then None
    else Some (Math_round (10 + (loaded / total) * 60))
  else None.

(** The line under the progress bar while [isUploading]. *)
Definition upload_status (uploadProgress : Z) : string :=
  if uploadProgress <? 10 then "Preparing secure upload..."
  else if uploadProgress <? 70 then
    ("Uploading to cloud storage... " ++ string_of_Z uploadProgress ++ "%")%string
  else "Upload completed, processing...".

(** A rectangle drawn in the overlay. *)
Record SvgRect : Type := mkSvgRect {
  rx : Q;
  ry : Q;
  rwidth : Q;
  rheight : Q
}.

(** What [renderImageWithBoundingBoxes] draws for one prediction: the
    box, the bar behind the label, and the anchor of the label text. *)
Record BoxDrawing : Type := mkBoxDrawing {
  box : SvgRect;
  label_bar : SvgRect;
  text_x : Q;
  text_y : Q
}.

Definition qmax (a b : Q) : Q := if Qle_bool a b then b else a.

(** The body of [analysisResult.predictions.map(...)] for a prediction
    with [bbox = [x1, y1, x2, y2]]. *)
Definition draw_prediction (x1 y1 x2 y2 : Q) : BoxDrawing :=
  let width := (x2 - x1)%Q in
  let height := (y2 - y1)%Q in
  mkBoxDrawing
    (mkSvgRect x1 y1 width height)
    (mkSvgRect x1 (y1 - 28) (qmax width 120) 28)
    (x1 + 6)%Q (y1 - 8)%Q.

(** The [bbox] of a prediction of the response, when it is a quadruple
    of numbers. *)
Definition bbox_of (prediction : json) : option (Q * Q * Q * Q) :=
  match get "bbox" prediction with
  | Some (JArr [JNum x1; JNum y1; JNum x2; JNum y2]) => Some (x1, y1, x2, y2)
  | _ => None
  end.

(** The label bar sits on the box: it starts at the left edge of the box,
    ends where the box begins, is at least as wide as the box and at
    least 120 wide, and holds the anchor of the label text. *)
Definition label_on_box (d : BoxDrawing) : Prop :=
  (rx (label_bar d) == rx (box d)
   /\ ry (label_bar d) + rheight (label_bar d) == ry (box d)
   /\ rwidth (box d) <= rwidth (label_bar d)
   /\ 120 <= rwidth (label_bar d)
   /\ rx (label_bar d) <= text_x d
   /\ ry (label_bar d) <= text_y d /\ text_y d <= ry (box d))%Q.

(** What [renderImageWithBoundingBoxes] comes to: [null] without a
    result, the drawings of the predictions (the text of the labels is
    left out), or neither when the stored value does not have the
    declared type. *)
Inductive rendering : Type :=
| NoResult
| Drawn (drawings : list BoxDrawing)
| IllTyped.

Fixpoint draw_all (predictions : list json) : option (list BoxDrawing) :=
  match predictions with
  | [] => Some []
  | p :: rest =>
      match bbox_of p, draw_all rest with
      | Some (x1, y1, x2, y2), Some ds =>
          Some (draw_prediction x1 y1 x2 y2 :: ds)
      | _, _ => None
      end
  end.

(** [renderImageWithBoundingBoxes] *)
Definition renderImageWithBoundingBoxes (s : AppState) : rendering :=
  if negb (truthy (analysisResult s)) then NoResult
  else
    match analysisResult s with
    | Some result =>
        match get "predictions" result with
        | Some (JArr predictions) =>
            match draw_all predictions with
            | Some ds => Drawn ds
            | None => IllTyped
            end
        | _ => IllTyped
        end
    | None => NoResult
    end.

End AppUi.

(* ================================================================== *)
(** ** The rest of the image viewer: panning, focusing, fitting, the
       minimap and the keyboard *)
(* ================================================================== *)

Module Pan.
Import Viewer.

(** [a + b], [-a] and [a - b] *)
Definition add (a b : num) : num :=
  match a, b with
  | NaN, _ | _, NaN => NaN
  | PInf, NInf | NInf, PInf => NaN
  | PInf, _ | _, PInf => PInf
  | NInf, _ | _, NInf => NInf
  | Fin p, Fin q => Fin (p + q)
  end.

Definition neg (a : num) : num :=
  match a with
  | NaN => NaN
  | PInf => NInf
  | NInf => PInf
  | Fin q => Fin (- q)
  end.

Definition sub (a b : num) : num := add a (neg b).

Record Position : Type := mkPosition {
  x : num;
  y : num
}.

(** The part of [getBoundingClientRect()] the viewer reads. *)
Record DOMRect : Type := mkDOMRect {
  left : Q;
  top : Q;
  width : Q;
  height : Q
}.

(** The state of the [ImageViewer] component; [view] holds the scale and
    the pinch attributes of the container. *)
Record ViewerState : Type := mkViewerState {
  view : View;
  position : Position;
  isDragging : bool;
  dragStart : Position;
  selectedPrediction : option nat;
  showMinimap : bool
}.

Definition setScale (v : num) (st : ViewerState) : ViewerState :=
  mkViewerState (mkView v (dataset (view st))) (position st) (isDragging st)
                (dragStart st) (selectedPrediction st) (showMinimap st).
Definition setView (v : View) (st : ViewerState) : ViewerState :=
  mkViewerState v (position st) (isDragging st)
                (dragStart st) (selectedPrediction st) (showMinimap st).
Definition setPosition (v : Position) (st : ViewerState) : ViewerState :=
  mkViewerState (view st) v (isDragging st)
                (dragStart st) (selectedPrediction st) (showMinimap st).
Definition setIsDragging (v : bool) (st : ViewerState) : ViewerState :=
  mkViewerState (view st) (position st) v
                (dragStart st) (selectedPrediction st) (showMinimap st).
Definition setDragStart (v : Position) (st : ViewerState) : ViewerState :=
  mkViewerState (view st) (position st) (isDragging st)
                v (selectedPrediction st) (showMinimap st).
Definition setSelectedPrediction (v : option nat) (st : ViewerState)
  : ViewerState :=
  mkViewerState (view st) (position st) (isDragging st)
                (dragStart st) v (showMinimap st).
Definition setShowMinimap (v : bool) (st : ViewerState) : ViewerState :=
  mkViewerState (view st) (position st) (isDragging st)
                (dragStart st) (selectedPrediction st) v.

(** The state of a freshly mounted viewer. *)
Definition initial_state : ViewerState :=
  mkViewerState initial_view (mkPosition (Fin 0) (Fin 0)) false
                (mkPosition (Fin 0) (Fin 0)) None true.

(** Where the style [translate(position) scale(scale)], with origin
    [0 0], puts the image point of coordinate [u], relative to the
    container. *)
Definition screen_x (st : ViewerState) (u : num) : num :=
  add (x (position st)) (mul u (scale (view st))).
Definition screen_y (st : ViewerState) (v : num) : num :=
  add (y (position st)) (mul v (scale (view st))).

Definition minimapSize : Q := 200.

(** [minimapScale] *)
Definition minimapScale (imageWidth imageHeight : Q) : num :=
  Math_min (div (Fin minimapSize) (Fin imageWidth))
           (div (Fin minimapSize) (Fin imageHeight)).

(** [getViewportRect]; [container] is [None] when the ref is not set. *)
Definition getViewportRect (container : option DOMRect)
    (imageWidth imageHeight : Q) (st : ViewerState)
  : num * num * num * num :=
  match container with
  | None => (Fin 0, Fin 0, Fin 0, Fin 0)
  | Some c =>
      let scale := scale (view st) in
      let ms := minimapScale imageWidth imageHeight in
      let viewportWidth := div (Fin (width c)) scale in
      let viewportHeight := div (Fin (height c)) scale in
      let viewportX := div (neg (x (position st))) scale in
      let viewportY := div (neg (y (position st))) scale in
      (Math_max (Fin 0) (mul viewportX ms),
       Math_max (Fin 0) (mul viewportY ms),
       Math_min (mul viewportWidth ms) (Fin minimapSize),
       Math_min (mul viewportHeight ms) (Fin minimapSize))
  end.

(** [handleMinimapClick] *)
Definition handleMinimapClick (container minimap : option DOMRect)
    (imageWidth imageHeight : Q) (clientX clientY : Q) (st : ViewerState)
  : ViewerState :=
  match container, minimap with
  | Some c, Some m =>
      let ms := minimapScale imageWidth imageHeight in
      let clickX := Fin (clientX - left m) in
      let clickY := Fin (clientY - top m) in
      (* Convert minimap coordinates to image coordinates *)
      let imageX := div clickX ms in
      let imageY := div clickY ms in
      (* Center the viewport on the clicked point *)
      let newX :=
        neg (sub (mul imageX (scale (view st)))
                 (div (Fin (width c)) (Fin 2))) in
      let newY :=
        neg (sub (mul imageY (scale (view st)))
                 (div (Fin (height c)) (Fin 2))) in
      setPosition (mkPosition newX newY) st
  | _, _ => st
  end.

(** [resetView] *)
Definition resetView (st : ViewerState) : ViewerState :=
  setSelectedPrediction None
    (setPosition (mkPosition (Fin 0) (Fin 0)) (setScale (Fin 0.5) st)).

(** [fitToScreen]; [image] tells whether the image ref is set. *)
Definition fitToScreen (container : option DOMRect) (image : bool)
    (imageWidth imageHeight : Q) (st : ViewerState) : ViewerState :=
  match container with
  | Some c =>
      if image then
        let scaleX := div (Fin (width c)) (Fin imageWidth) in
        let scaleY := div (Fin (height c)) (Fin imageHeight) in
        let newScale := Math_min (Math_min scaleX scaleY) (Fin 1) in
        setPosition (mkPosition (Fin 0) (Fin 0)) (setScale newScale st)
      else st
  | None => st
  end.

(** The [bbox] of a prediction handed to the viewer. *)
Record Prediction : Type := mkPrediction {
  bx1 : Q;
  by1 : Q;
  bx2 : Q;
  by2 : Q
}.

(** [focusOnPrediction] *)
Definition focusOnPrediction (predictions : list Prediction)
    (container : option DOMRect) (index : nat) (st : ViewerState)
  : ViewerState :=
  match nth_error predictions index, container with
  | Some prediction, Some c =>
      let centerX := div (add (Fin (bx1 prediction)) (Fin (bx2 prediction)))
                         (Fin 2) in
      let centerY := div (add (Fin (by1 prediction)) (Fin (by2 prediction)))
                         (Fin 2) in
      let newScale := Fin 0.5 in
      (* Calculate position to center the bounding box *)
      let newX := neg (sub (mul centerX newScale)
                           (div (Fin (width c)) (Fin 2))) in
      let newY := neg (sub (mul centerY newScale)
                           (div (Fin (height c)) (Fin 2))) in
      setSelectedPrediction (Some index)
        (setPosition (mkPosition newX newY) (setScale newScale st))
  | _, _ => st
  end.

(** The position a zoom towards the point [(px, py)] of the container
    moves to, as both zoom handlers compute it. *)
Definition zoom_towards (position : Position) (px py ratio : num) : Position :=
  mkPosition
    (sub (x position) (mul (sub px (x position)) (sub ratio (Fin 1))))
    (sub (y position) (mul (sub py (y position)) (sub ratio (Fin 1)))).

(** [handleWheel], with the update of [position]. *)
Definition handleWheelEvent (container : option DOMRect)
    (deltaY : num) (clientX clientY : Q) (st : ViewerState) : ViewerState :=
  let scale := scale (view st) in
  let newScale := handleWheel deltaY scale in
  let st1 :=
    match container with
    | Some rect =>
        let mouseX := Fin (clientX - left rect) in
        let mouseY := Fin (clientY - top rect) in
        (* Zoom towards mouse position *)
        let scaleChange := div newScale scale in
        setPosition (zoom_towards (position st) mouseX mouseY scaleChange) st
    | None => st
    end in
  setScale newScale st1.

(** [handleMouseDown], [handleMouseMove], [handleMouseUp] *)
Definition handleMouseDown (clientX clientY : Q) (st : ViewerState)
  : ViewerState :=
  setDragStart (mkPosition (sub (Fin clientX) (x (position st)))
                           (sub (Fin clientY) (y (position st))))
               (setIsDragging true st).

Definition handleMouseMove (clientX clientY : Q) (st : ViewerState)
  : ViewerState :=
  if isDragging st then
    setPosition (mkPosition (sub (Fin clientX) (x (dragStart st)))
                            (sub (Fin clientY) (y (dragStart st)))) st
  else st.

Definition handleMouseUp (st : ViewerState) : ViewerState :=
  setIsDragging false st.

(** [handleTouchStart], [handleTouchMove], [handleTouchEnd] *)
Definition handleTouchStart (touches : list Touch) (st : ViewerState)
  : ViewerState :=
  match touches with
  | [touch] =>
      setDragStart (mkPosition (sub (Fin (clientX touch)) (x (position st)))
                               (sub (Fin (clientY touch)) (y (position st))))
                   (setIsDragging true st)
  | _ => st
  end.

Definition handleTouchMove (touches : list Touch) (st : ViewerState)
  : ViewerState :=
  match touches with
  | [touch] =>
      if isDragging st then
        setPosition (mkPosition (sub (Fin (clientX touch)) (x (dragStart st)))
                                (sub (Fin (clientY touch)) (y (dragStart st))))
                    st
      else st
  | _ => st
  end.

Definition handleTouchEnd (st : ViewerState) : ViewerState :=
  setIsDragging false st.

(** [handleTouchZoom], with the update of [position]; the container is
    the element that carries the pinch attributes. *)
Definition handleTouchZoomEvent (rect : DOMRect) (touches : list Touch)
    (st : ViewerState) : ViewerState :=
  match touches, initialPinchDistance (dataset (view st)) with
  | [touch1; touch2], Some _ =>
      let newScale := scale (handleTouchZoom touches (view st)) in
      (* Calculate center point between touches *)
      let centerX := div (Fin (clientX touch1 + clientX touch2)) (Fin 2) in
      let centerY := div (Fin (clientY touch1 + clientY touch2)) (Fin 2) in
      let relativeX := sub centerX (Fin (left rect)) in
      let relativeY := sub centerY (Fin (top rect)) in
      (* Zoom towards center point *)
      let scaleRatio := div newScale (scale (view st)) in
      setView (handleTouchZoom touches (view st))
        (setPosition
           (zoom_towards (position st) relativeX relativeY scaleRatio) st)
  | _, _ => setView (handleTouchZoom touches (view st)) st
  end.

(** The three touch props of the container. *)
Definition onTouchStart (rect : DOMRect) (touches : list Touch)
    (st : ViewerState) : ViewerState :=
  handleTouchZoomEvent rect touches (handleTouchStart touches st).

Definition onTouchMove (rect : DOMRect) (touches : list Touch)
    (st : ViewerState) : ViewerState :=
  handleTouchZoomEvent rect touches (handleTouchMove touches st).

Definition onTouchEnd (st : ViewerState) : ViewerState :=
  setView (handleTouchZoomEnd (view st)) (handleTouchEnd st).

(** A touch event that reaches the container while fingers are down. *)
Inductive touch_event : Type :=
| TouchStart (touches : list Touch)
| TouchMove (touches : list Touch).

Definition on_touch (rect : DOMRect) (st : ViewerState) (e : touch_event)
  : ViewerState :=
  match e with
  | TouchStart touches => onTouchStart rect touches st
  | TouchMove touches => onTouchMove rect touches st
  end.

(** [handleKeyDown]; [inField] tells whether the target is an input or
    a text area. *)
Definition handleKeyDown (container : option DOMRect) (image : bool)
    (imageWidth imageHeight : Q) (inField : bool) (key : string)
    (st : ViewerState) : ViewerState :=
  if inField then st
  else if String.eqb key "+" || String.eqb key "=" then
    setScale (zoomIn (scale (view st))) st
  else if String.eqb key "-" then
    setScale (zoomOut (scale (view st))) st
  else if String.eqb key "0" then resetView st
  else if String.eqb key "f" || String.eqb key "F" then
    fitToScreen container image imageWidth imageHeight st
  else if String.eqb key "m" || String.eqb key "M" then
    setShowMinimap (negb (showMinimap st)) st
  else if String.eqb key "ArrowLeft" then
    setPosition (mkPosition (add (x (position st)) (Fin 50)) (y (position st)))
                st
  else if String.eqb key "ArrowRight" then
    setPosition (mkPosition (sub (x (position st)) (Fin 50)) (y (position st)))
                st
  else if String.eqb key "ArrowUp" then
    setPosition (mkPosition (x (position st)) (add (y (position st)) (Fin 50)))
                st
  else if String.eqb key "ArrowDown" then
    setPosition (mkPosition (x (position st)) (sub (y (position st)) (Fin 50)))
                st
  else st.

(** [showMinimap && scale > 0.3]: the minimap is rendered. *)
Definition minimap_visible (st : ViewerState) : bool :=
  showMinimap st && gt (scale (view st)) (Fin 0.3).

(** Two boxes handed to the viewer. *)
Definition sample_predictions : list Prediction :=
  [mkPrediction 100 120 140 160; mkPrediction 600 600 700 685].

(** The minimap element, 200 wide, near the top right of the container. *)
Definition sample_minimap : DOMRect := mkDOMRect 580 50 200 150.

(** A container of 800 by 600 at the top left of the page. *)
Definition sample_rect : DOMRect := mkDOMRect 0 0 800 600.

(** A viewer in the middle of a pinch that began at distance 100. *)
Definition pinching_state : ViewerState :=
  setView (mkView (Fin 0.5) (mkDataset (Some (Fin 100)) (Some (Fin 0.5))))
          initial_state.

(** The number is finite and equal to [q]. *)
Definition is_fin (n : num) (q : Q) : Prop :=
  match n with
  | Fin p => (p == q)%Q
  | _ => False
  end.

End Pan.

(* ================================================================== *)
(** ** Properties of the analysis client *)
(* ================================================================== *)

Module AppFacts.
Import App AppUi.

Ltac step_flow :=
  unfold bind, do_fetch, do_json, do_upload, prop, emit, modify, throw, ret;
  cbn [fst snd app].

(** Case analysis on the next answer of the outside world that the run
    depends on. *)
Ltac next_answer :=
  match goal with
  | |- context [fetch ?br ?url ?body] =>
      destruct (fetch br url body) as [? | ?] eqn:?
  | |- context [ok ?r] => destruct (ok r) eqn:?
  | |- context [json_body ?r] => destruct (json_body r) as [? | ?] eqn:?
  | |- context [xhr_put ?br ?u ?c ?f] =>
      destruct (xhr_put br u c f) as [? ? | | ] eqn:?
  | |- context [?status =? 200] => destruct (status =? 200) eqn:?
  | |- context [match ?j with JNull => _ | _ => _ end] => destruct j
  end; cbn.

Ltac run_side :=
  unfold upload_location, upload_completed, analysis_reply;
  cbn;
  repeat match goal with H : ?l = _ |- context [?l] => rewrite H end;
  cbn; reflexivity.

Ltac close_run :=
  match goal with
  | H : json_body _ = JsonValue ?d |- _ =>
      first [ solve [eapply (RunSucceeded _ _ _ d); run_side]
            | solve [eapply (RunAnalysisFailed _ _ _ d); run_side]
            | solve [eapply (RunUploadFailed _ _ _ d); run_side] ]
  | _ => solve [eapply RunNoLocation; run_side]
  end.

Lemma handleAnalyze_run (br : Browser) (s : AppState) (file : File) :
  selectedFile s = Some file ->
  run br s file (fst (handleAnalyze br s)) (snd (handleAnalyze br s)).
Proof.
  intros Hfile. unfold handleAnalyze. rewrite Hfile. clear Hfile.
  unfold try_block. step_flow. cbn.
  repeat next_answer.
  all: close_run.
Qed.

(** What a run with a selected file leaves in the cells it does not
    report through: the busy flags are cleared, the progress is back to
    zero, the selection and the preview are the ones from before. *)
Lemma handleAnalyze_frame (br : Browser) (s : AppState) (file : File) :
  selectedFile s = Some file ->
  let s' := fst (handleAnalyze br s) in
  isLoading s' = false /\ isUploading s' = false /\ uploadProgress s' = 0
  /\ selectedFile s' = selectedFile s /\ previewUrl s' = previewUrl s.
Proof.
  intros Hfile. cbv zeta. unfold handleAnalyze. rewrite Hfile.
  unfold try_block. step_flow. cbn.
  repeat next_answer.
  all: cbn; rewrite ?Hfile; repeat split; reflexivity.
Qed.

Lemma handleAnalyze_no_file (br : Browser) (s : AppState) :
  selectedFile s = None ->
  handleAnalyze br s = (setError (Some "Please select an image first") s, []).
Proof. intros H. unfold handleAnalyze. now rewrite H. Qed.

(** C9: invoked while no file is selected, [handleAnalyze] sets the error
    message 'Please select an image first' and returns at once: it sends
    no request and changes no other cell of the state (result, preview,
    progress, the two busy flags and the selection itself). *)
Theorem C9_no_file_selected (br : Browser) (s : AppState) :
  selectedFile s = None ->
  let s' := fst (handleAnalyze br s) in
  error s' = Some "Please select an image first"
  /\ snd (handleAnalyze br s) = []
  /\ analysisResult s' = analysisResult s
  /\ previewUrl s' = previewUrl s
  /\ uploadProgress s' = uploadProgress s
  /\ isLoading s' = isLoading s
  /\ isUploading s' = isUploading s
  /\ selectedFile s' = selectedFile s.
Proof.
  intros H. cbv zeta. rewrite (handleAnalyze_no_file br s H). cbn. tauto.
Qed.

Lemma C9_no_file_selected_witness :
  let s := setSelectedFile None sample_state in
  let s' := fst (handleAnalyze sample_browser s) in
  error s' = Some "Please select an image first"
  /\ snd (handleAnalyze sample_browser s) = []
  /\ analysisResult s' = analysisResult s
  /\ previewUrl s' = previewUrl s
  /\ uploadProgress s' = uploadProgress s
  /\ isLoading s' = isLoading s
  /\ isUploading s' = isUploading s
  /\ selectedFile s' = selectedFile s.
Proof.
  exact (C9_no_file_selected sample_browser
           (setSelectedFile None sample_state) eq_refl).
Defined.

(** What it takes for the upload location to be obtained, and for the
    upload to be completed. *)
Lemma upload_location_answer (br : Browser) (file : File) (data : json) :
  upload_location br file = Some data ->
  exists r,
    fetch br presign_url (presign_body file) = FetchResolves r
    /\ ok r = true /\ json_body r = JsonValue data.
Proof.
  unfold upload_location. intros H.
  destruct (fetch br presign_url (presign_body file)) as [t | r];
    [discriminate | ].
  exists r. destruct (ok r); [ | discriminate].
  destruct (json_body r) as [t | j]; [discriminate | ].
  destruct j; inversion H; auto.
Qed.

Lemma upload_completed_status (br : Browser) (file : File) (data : json) :
  upload_completed br file data = true ->
  exists statusText,
    xhr_put br (get "presigned_url" data) (content_type_of file) file
    = XhrLoad 200 statusText.
Proof.
  unfold upload_completed. intros H.
  destruct (xhr_put br (get "presigned_url" data) (content_type_of file) file)
    as [status txt | | ]; try discriminate.
  apply Z.eqb_eq in H. subst. now exists txt.
Qed.

(** C6: the requests of a run leave in a fixed order, and how far a run
    gets is decided by the answers.  Without a selected file nothing is
    sent.  With one, the log is: the request for the upload location
    alone, when no location is obtained; that request and the upload to
    the location returned, when the upload does not end with a [load]
    event of status 200; and these two followed by the analysis request
    carrying the returned [s3_key], when it does.  So the analysis
    request is sent only after the upload has ended with status 200, as
    the third and last request. *)
Theorem C6_requests_in_fixed_order (br : Browser) (s : AppState) :
  let tr := snd (handleAnalyze br s) in
  (selectedFile s = None /\ tr = [])
  \/ exists file,
       selectedFile s = Some file
       /\ ((upload_location br file = None /\ tr = [presign_request file])
           \/ exists r data,
                fetch br presign_url (presign_body file) = FetchResolves r
                /\ ok r = true /\ json_body r = JsonValue data
                /\ upload_location br file = Some data
                /\ ((upload_completed br file data = false
                     /\ tr = [presign_request file; upload_request file data])
                    \/ (upload_completed br file data = true
                        /\ tr = [presign_request file;
                                 upload_request file data;
                                 analyze_request data]
                        /\ exists statusText,
                             xhr_put br (get "presigned_url" data)
                                     (content_type_of file) file
                             = XhrLoad 200 statusText))).
Proof.
  cbv zeta. destruct (selectedFile s) as [file | ] eqn:Hfile.
  2:{ left. now rewrite (handleAnalyze_no_file br s Hfile). }
  right. exists file. split; [reflexivity | ].
  pose proof (handleAnalyze_run br s file Hfile) as R.
  inversion R as [s' m H1 _ _ Hs Htr
                 | data s' m H1 H2 _ _ Hs Htr
                 | data s' m H1 H2 H3 _ _ Hs Htr
                 | data result s' H1 H2 H3 _ _ Hs Htr].
  - left. now split.
  - right. destruct (upload_location_answer br file data H1) as (r & Hr).
    exists r, data. intuition.
  - right. destruct (upload_location_answer br file data H1) as (r & Hr).
    destruct (upload_completed_status br file data H2) as (txt & Htxt).
    exists r, data. intuition eauto.
  - right. destruct (upload_location_answer br file data H1) as (r & Hr).
    destruct (upload_completed_status br file data H2) as (txt & Htxt).
    exists r, data. intuition eauto.
Qed.

(** The log of a run with a selected file, whatever its outcome. *)
Lemma handleAnalyze_log (br : Browser) (s : AppState) (file : File) :
  selectedFile s = Some file ->
  let tr := snd (handleAnalyze br s) in
  tr = [presign_request file]
  \/ exists data,
       upload_location br file = Some data
       /\ (tr = [presign_request file; upload_request file data]
           \/ tr = [presign_request file; upload_request file data;
                    analyze_request data]).
Proof.
  intros Hfile. cbv zeta.
  pose proof (handleAnalyze_run br s file Hfile) as R.
  inversion R; [now left | right; exists data; auto ..].
Qed.

(** The message set by a run is the one of the first failing step, and
    none when no step fails. *)
Lemma handleAnalyze_error (br : Browser) (s : AppState) (file : File) :
  selectedFile s = Some file ->
  error (fst (handleAnalyze br s)) = failure_message br file.
Proof.
  intros Hfile. unfold handleAnalyze. rewrite Hfile. clear Hfile.
  unfold failure_message, upload_failure, analysis_failure, refusal_message,
    upload_completed, upload_error, try_block.
  step_flow. cbn.
  repeat first
    [ match goal with
      | |- context [match ?j with JNull => _ | _ => _ end] =>
          is_var j; destruct j; cbn
      end
    | next_answer ].
  all: try reflexivity.
Qed.

(** C7, as stated, fails in two ways.  The analysis button stays enabled
    after a successful run, and a run that fails then leaves the result
    of the earlier run stored: the stored result is not empty.  And a
    refusal whose [detail] is the empty list sets the empty string as
    the message, for which the page shows no error. *)
Lemma C7_failed_run_keeps_earlier_result :
  (let s1 := fst (handleAnalyze sample_browser sample_state) in
   let s2 := fst (handleAnalyze refusing_browser s1) in
   selectedFile s1 = Some sample_file
   /\ analyze_disabled s1 = false
   /\ step_fails refusing_browser sample_file
   /\ analysisResult s2 = Some readme_response)
  /\ (let s' := fst (handleAnalyze empty_detail_browser sample_state) in
      step_fails empty_detail_browser sample_file
      /\ error s' = Some ""
      /\ error_visible s' = false).
Proof.
  split.
  - cbv zeta. split; [reflexivity | ]. split; [reflexivity | ].
    split; [ | reflexivity].
    right. exists sample_location. split; [reflexivity | left; reflexivity].
  - cbv zeta. split; [left; reflexivity | ]. split; reflexivity.
Qed.

(** C7, amended: if a step of the flow fails (no upload location is
    obtained, the upload does not end with status 200, or the analysis
    call does not answer with an ok status and a JSON body), no result is
    stored: the stored result is left as it was before the call, empty
    if it was empty.  One error message is set, the one of the first
    failing step, and the page shows it unless it is the empty string.
    No step is retried: each of the three requests was sent at most
    once. *)
Theorem C7_failure_stores_nothing (br : Browser) (s : AppState) (file : File) :
  selectedFile s = Some file ->
  step_fails br file ->
  let s' := fst (handleAnalyze br s) in
  let tr := snd (handleAnalyze br s) in
  analysisResult s' = analysisResult s
  /\ (exists m,
        failure_message br file = Some m
        /\ error s' = Some m
        /\ error_visible s' = negb (String.eqb m ""))
  /\ (times (is_fetch_to presign_url) tr <= 1)%nat
  /\ (times is_upload tr <= 1)%nat
  /\ (times (is_fetch_to analyze_url) tr <= 1)%nat.
Proof.
  intros Hfile Hfail. cbv zeta.
  pose proof (handleAnalyze_run br s file Hfile) as R.
  assert (Hres : analysisResult (fst (handleAnalyze br s)) = analysisResult s
                 /\ exists m, error (fst (handleAnalyze br s)) = Some m).
  { inversion R as [s' m H1 Hr He
                   | data s' m H1 H2 Hr He
                   | data s' m H1 H2 H3 Hr He
                   | data result s' H1 H2 H3 Hr He]; eauto.
    exfalso. destruct Hfail as [Hnone | (data' & Hsome & [Hup | Han])];
      congruence. }
  destruct Hres as [Hres (m & Herr)].
  split; [assumption | ]. split.
  - exists m. rewrite <- (handleAnalyze_error br s file Hfile).
    split; [assumption | ]. split; [assumption | ].
    unfold error_visible. now rewrite Herr.
  - inversion R; cbn; lia.
Qed.

Lemma C7_failure_stores_nothing_witness :
  let s := setAnalysisResult (Some readme_response) sample_state in
  let s' := fst (handleAnalyze refusing_browser s) in
  let tr := snd (handleAnalyze refusing_browser s) in
  analysisResult s' = analysisResult s
  /\ (exists m,
        failure_message refusing_browser sample_file = Some m
        /\ error s' = Some m
        /\ error_visible s' = negb (String.eqb m ""))
  /\ (times (is_fetch_to presign_url) tr <= 1)%nat
  /\ (times is_upload tr <= 1)%nat
  /\ (times (is_fetch_to analyze_url) tr <= 1)%nat.
Proof.
  apply (C7_failure_stores_nothing refusing_browser
           (setAnalysisResult (Some readme_response) sample_state)
           sample_file).
  - reflexivity.
  - right. exists sample_location. split; [reflexivity | left; reflexivity].
Defined.

(** A run in which every step succeeds stores the body of the analysis
    answer, as it came. *)
Lemma handleAnalyze_success (br : Browser) (s : AppState) (file : File)
    (data result : json) :
  selectedFile s = Some file ->
  upload_location br file = Some data ->
  upload_completed br file data = true ->
  analysis_reply br data = Some result ->
  analysisResult (fst (handleAnalyze br s)) = nullable result
  /\ error (fst (handleAnalyze br s)) = None.
Proof.
  intros Hfile Hloc Hup Han.
  pose proof (handleAnalyze_run br s file Hfile) as R.
  inversion R; split; congruence.
Qed.

(** C8, as stated, fails: the analysis request of a run against the
    documented service carries none of the four pipeline parameters. *)
Lemma C8_request_without_config :
  ~ (forall br s body,
        In (EvFetch analyze_url body) (snd (handleAnalyze br s)) ->
        carries_config body = true).
Proof.
  intros H.
  specialize (H sample_browser sample_state
                (JObj [("s3_key", JStr "uploads/uuid-filename.jpg")])).
  cbn in H. discriminate H. right. right. left. reflexivity.
Qed.

(** C8, amended: no analysis request sent across the boundary carries
    the window size, the overlap, the IoU threshold or the confidence
    floor.  The body of every analysis request has no property other
    than [s3_key]: it is [{s3_key}] with the [s3_key] of the answer that
    gave the upload location, and the empty object when that answer has
    no [s3_key]. *)
Theorem C8_analysis_request_is_s3_key_only
    (br : Browser) (s : AppState) (body : json) :
  In (EvFetch analyze_url body) (snd (handleAnalyze br s)) ->
  (exists file data,
      selectedFile s = Some file
      /\ upload_location br file = Some data
      /\ body = obj1 "s3_key" (get "s3_key" data)
      /\ (forall key, get "s3_key" data = Some key ->
                      body = JObj [("s3_key", key)])
      /\ (get "s3_key" data = None -> body = JObj []))
  /\ (forall k, In k (keys body) -> k = "s3_key")
  /\ (forall k, In k config_fields -> has k body = false)
  /\ carries_config body = false.
Proof.
  intros Hin.
  destruct (selectedFile s) as [file | ] eqn:Hfile.
  2:{ rewrite (handleAnalyze_no_file br s Hfile) in Hin. destruct Hin. }
  assert (Hbody : exists data, upload_location br file = Some data
                               /\ body = obj1 "s3_key" (get "s3_key" data)).
  { destruct (handleAnalyze_log br s file Hfile)
      as [Htr | (data & Hloc & [Htr | Htr])];
      rewrite Htr in Hin; cbn in Hin;
      unfold presign_request, upload_request, analyze_request in Hin;
      repeat destruct Hin as [Hin | Hin];
      try discriminate Hin; try contradiction.
    inversion Hin. eauto. }
  destruct Hbody as (data & Hloc & ->).
  split.
  { exists file, data. repeat split; try assumption.
    - intros key ->. reflexivity.
    - intros ->. reflexivity. }
  assert (Hcfg : forall fs, (forall k, In k (map fst fs) -> k = "s3_key") ->
            forall k, In k config_fields -> has k (JObj fs) = false).
  { intros fs Hfs k Hk. unfold has, get.
    induction fs as [ | [k' v] fs IH]; [reflexivity | ].
    cbn. destruct (String.eqb_spec k k') as [-> | Hne].
    - rewrite (Hfs k' (or_introl eq_refl)) in Hk.
      cbn in Hk. repeat destruct Hk as [Hk | Hk]; try discriminate Hk.
      destruct Hk.
    - apply IH. intros k0 H0. apply Hfs. now right. }
  assert (Hkeys : forall k,
            In k (keys (obj1 "s3_key" (get "s3_key" data))) -> k = "s3_key").
  { unfold obj1. destruct (get "s3_key" data); cbn; intuition. }
  split; [exact Hkeys | ].
  split.
  - unfold obj1 in *. destruct (get "s3_key" data); apply Hcfg; exact Hkeys.
  - unfold obj1. destruct (get "s3_key" data); reflexivity.
Qed.

Lemma C8_analysis_request_is_s3_key_only_witness :
  let body := JObj [("s3_key", JStr "uploads/uuid-filename.jpg")] in
  (exists file data,
      selectedFile sample_state = Some file
      /\ upload_location sample_browser file = Some data
      /\ body = obj1 "s3_key" (get "s3_key" data)
      /\ (forall key, get "s3_key" data = Some key ->
                      body = JObj [("s3_key", key)])
      /\ (get "s3_key" data = None -> body = JObj []))
  /\ (forall k, In k (keys body) -> k = "s3_key")
  /\ (forall k, In k config_fields -> has k body = false)
  /\ carries_config body = false.
Proof.
  apply (C8_analysis_request_is_s3_key_only sample_browser sample_state).
  cbn. right. right. left. reflexivity.
Defined.

(** *** The shape of the analysis response *)


Lemma assoc_None (k : string) (fs : list (string * json)) :
  ~ In k (map fst fs) -> assoc k fs = None.
Proof.
  induction fs as [ | [k' v] fs IH]; cbn; [reflexivity | ].
  intros Hnot. destruct (String.eqb_spec k k') as [-> | Hne].
  - exfalso. apply Hnot. now left.
  - apply IH. intros Hin. apply Hnot. now right.
Qed.

(** A value of the closed shape of the design document is not an
    [AnalysisResult]: the client's type requires [image]. *)
Lemma spec_Result_shape_not_AnalysisResult (j : json) :
  spec_Result_shape j = true -> is_AnalysisResult j = false.
Proof.
  unfold spec_Result_shape, same_keys. intros H.
  apply andb_true_iff in H as [H _]. apply andb_true_iff in H as [H _].
  assert (Himg : get "image" j = None).
  { destruct j; try reflexivity. cbn in *. apply assoc_None. intros Hin.
    rewrite forallb_forall in H. specialize (H _ Hin). discriminate H. }
  unfold is_AnalysisResult, required at 2. rewrite Himg.
  now rewrite andb_false_r.
Qed.





End AppFacts.

(* ================================================================== *)
(** ** Properties of the detection pipeline *)
(* ================================================================== *)

Module CoreFacts.
Import Core.

(** *** SizeClassifier and ResultAssembler *)

(** C2: in every assembled Result, [total_detections] is the number of
    elements of [predictions], which are the detections handed to
    [assemble]; this holds in particular for the output of [merge]. *)
Theorem C2_total_detections_is_count
    (image : Image) (detection_set : list Detection) (m : Method) (ws : Z) :
  let r := assemble image detection_set m ws in
  total_detections r = Z.of_nat (List.length (predictions r))
  /\ predictions r = detection_set
  /\ forall iou_threshold,
       let r' := assemble image (merge detection_set iou_threshold) m ws in
       total_detections r' = Z.of_nat (List.length (predictions r')).
Proof.
  cbv zeta. split; [reflexivity | ]. split; [reflexivity | ].
  intros iou_threshold. reflexivity.
Qed.

(** C5: [classify] answers Direct exactly when width and height are both
    at most the window size, and Tiled otherwise; the Result assembled
    with that answer records it in [processing_info.method] as one of the
    two strings 'direct' and 'sliding_window' (which the client labels
    "Direct Processing" and "Sliding Window"); and the answer is the one
    computed from the two dimensions alone. *)
Theorem C5_classify_by_dimensions (image : Image) (ws : Z) :
  (classify image ws = Direct <-> width image <= ws /\ height image <= ws)
  /\ (classify image ws = Tiled <-> ~ (width image <= ws /\ height image <= ws))
  /\ (forall detection_set,
        method (processing_info
                  (assemble image detection_set (classify image ws) ws))
        = method_name (classify image ws))
  /\ (method_name (classify image ws) = "direct"
      \/ method_name (classify image ws) = "sliding_window")
  /\ App.methodLabel (method_name (classify image ws))
     = match classify image ws with
       | Direct => "Direct Processing"
       | Tiled => "Sliding Window"
       end
  /\ classify image ws
     = classify (mkImage (width image) (height image) None []) ws.
Proof.
  unfold classify. cbn [width height].
  destruct (width image <=? ws) eqn:Hw; destruct (height image <=? ws) eqn:Hh;
    cbn [andb];
    try apply Z.leb_le in Hw; try apply Z.leb_gt in Hw;
    try apply Z.leb_le in Hh; try apply Z.leb_gt in Hh;
    repeat split; try reflexivity; try discriminate; try lia; auto;
    intros; try lia; try discriminate.
Qed.

(** *** Tiler *)

Lemma pull_back_spec (dim ws o : Z) :
  (dim < o + extent dim ws -> pull_back dim ws o + extent dim ws = dim)
  /\ (o + extent dim ws <= dim -> pull_back dim ws o = o).
Proof.
  unfold pull_back. destruct (dim <? o + extent dim ws) eqn:H;
    [apply Z.ltb_lt in H | apply Z.ltb_ge in H]; lia.
Qed.

(** The origins of a walk are the pulled-back regular origins that lie
    in the image. *)
Lemma walk_In (fuel : nat) (dim ws stride o o' : Z) :
  0 <= stride ->
  In o' (walk fuel dim ws stride o) <->
  exists k : nat,
    (k < fuel)%nat /\ o + Z.of_nat k * stride < dim
    /\ o' = pull_back dim ws (o + Z.of_nat k * stride).
Proof.
  intros Hstride. revert o.
  induction fuel as [ | fuel IH]; intros o; cbn [walk].
  - split; [intros [] | intros (k & Hk & _); lia].
  - destruct (o <? dim) eqn:Ho;
      [apply Z.ltb_lt in Ho | apply Z.ltb_ge in Ho].
    + cbn [In]. rewrite IH. split.
      * intros [<- | (k & Hk & Hlt & ->)].
        -- exists 0%nat. rewrite Z.mul_0_l, Z.add_0_r.
           repeat split; [lia | assumption].
        -- exists (S k). rewrite Nat2Z.inj_succ.
           replace (o + Z.succ (Z.of_nat k) * stride)
             with (o + stride + Z.of_nat k * stride) by lia.
           repeat split; [lia | assumption].
      * intros ([ | k] & Hk & Hlt & ->).
        -- left. now rewrite Z.mul_0_l, Z.add_0_r.
        -- right. exists k. rewrite Nat2Z.inj_succ in *.
           replace (o + stride + Z.of_nat k * stride)
             with (o + Z.succ (Z.of_nat k) * stride) by lia.
           repeat split; [lia | assumption].
    + split; [intros [] | ].
      intros (k & _ & Hlt & _). nia.
Qed.

(** Along one axis every pixel is under some window. *)
Lemma axis_origins_cover (dim ws stride x : Z) :
  1 <= stride <= ws -> 0 <= x < dim ->
  exists o, In o (axis_origins dim ws stride)
            /\ o <= x < o + extent dim ws.
Proof.
  intros Hs Hx. unfold axis_origins.
  pose proof (Z.div_mod x stride ltac:(lia)) as Hdm.
  pose proof (Z.mod_pos_bound x stride ltac:(lia)) as Hmod.
  assert (Hq : 0 <= x / stride) by (apply Z.div_pos; lia).
  assert (Hqx : stride * (x / stride) <= x) by lia.
  exists (pull_back dim ws (0 + Z.of_nat (Z.to_nat (x / stride)) * stride)).
  split.
  - apply walk_In; [lia | ].
    exists (Z.to_nat (x / stride)). rewrite Z2Nat.id by assumption.
    repeat split; [ | lia].
    apply Z2Nat.inj_lt; nia.
  - rewrite Z2Nat.id by assumption. unfold pull_back, extent.
    destruct (dim <? 0 + x / stride * stride + Z.min ws dim) eqn:H;
      [apply Z.ltb_lt in H | apply Z.ltb_ge in H]; lia.
Qed.

(** Along an axis no window leaves the image. *)
Lemma axis_origins_inside (dim ws stride o : Z) :
  0 <= stride -> 1 <= ws -> 1 <= dim ->
  In o (axis_origins dim ws stride) ->
  0 <= o /\ o + extent dim ws <= dim.
Proof.
  intros Hs Hws Hdim Hin. unfold axis_origins in Hin.
  apply walk_In in Hin as (k & _ & Hlt & ->); [ | assumption].
  unfold pull_back, extent.
  destruct (dim <? 0 + Z.of_nat k * stride + Z.min ws dim) eqn:H;
    [apply Z.ltb_lt in H | apply Z.ltb_ge in H]; nia.
Qed.

(** Every origin of an axis comes from a regular origin by the
    clamp-back rule. *)
Lemma axis_origins_regular (dim ws stride o : Z) :
  0 <= stride ->
  In o (axis_origins dim ws stride) ->
  exists k : Z,
    0 <= k /\ k * stride < dim
    /\ (dim < k * stride + extent dim ws -> o + extent dim ws = dim)
    /\ (k * stride + extent dim ws <= dim -> o = k * stride).
Proof.
  intros Hs Hin. unfold axis_origins in Hin.
  apply walk_In in Hin as (k & _ & Hlt & ->); [ | assumption].
  exists (Z.of_nat k). rewrite Z.add_0_l in *.
  repeat split; try lia; apply pull_back_spec.
Qed.

(** C3, as stated, fails on its example and on images with one side
    shorter than the window.  For the 1280 x 1280 image with window size
    640 and overlap 64 the regular origin 1152 overflows and is pulled
    back to 640, so each axis has the three origins 0, 576 and 640 and
    the tiler yields nine windows, while the four windows of the scenario
    leave the pixels from 1216 on uncovered.  For an image 100 wide and
    2000 high, which is tiled, a window of 640 overflows at the first
    regular origin already, and a window with origin + 640 = 100, as the
    pull-back is worded, lies outside the image; the windows of the
    tiler are inside, 100 wide and at origin 0. *)
Lemma C3_scenario_is_not_four_windows :
  (exists windows,
      tile image_1280 640 64 = Ok windows
      /\ map origin windows
         = [(0, 0); (576, 0); (640, 0); (0, 576); (576, 576); (640, 576);
            (0, 640); (576, 640); (640, 640)]
      /\ windows <> scenario_windows)
  /\ (forall w, In w scenario_windows -> ~ covers w 1279 1279)
  /\ (classify narrow_image 640 = Tiled
      /\ width narrow_image < 0 + 640
      /\ (forall w, origin_x w + 640 = width narrow_image ->
                    ~ inside narrow_image w)
      /\ exists windows,
           tile narrow_image 640 64 = Ok windows
           /\ forall w, In w windows ->
                        inside narrow_image w
                        /\ origin_x w = 0 /\ win_width w = 100).
Proof.
  split; [ | split].
  - eexists. split; [reflexivity | ]. split; [reflexivity | discriminate].
  - intros w Hw. unfold covers. cbn in Hw.
    repeat destruct Hw as [<- | Hw]; cbn; try lia; contradiction.
  - split; [reflexivity | ]. split; [cbn; lia | ]. split.
    + intros w Hw. unfold inside. cbn in *. lia.
    + eexists. split; [vm_compute; reflexivity | ].
      intros w Hw. cbn in Hw.
      repeat destruct Hw as [<- | Hw]; try contradiction;
        unfold inside; cbn; lia.
Qed.

(** C3, amended: for every image of width and height at least 1 and
    every configuration with 0 <= overlap < window_size, [tile] returns
    windows whose union is the image: every pixel of the image lies under
    a window and no window leaves the image.  In the tiled case every
    window is window_size long on each side of the image that is at least
    window_size, spans a shorter side entirely, and sits at a regular
    origin (a multiple of the stride inside the image) or, where the
    window at that origin would overflow, is pulled back so that it ends
    at the border: origin + window_size is the image dimension on a side
    of at least window_size.  The 1280 x 1280 image with window size 640
    and overlap 64 yields the nine windows with origins in
    {0, 576, 640} x {0, 576, 640}. *)
Theorem C3_tile_covers_image (image : Image) (ws overlap : Z) :
  1 <= width image -> 1 <= height image -> 0 <= overlap < ws ->
  exists windows,
    tile image ws overlap = Ok windows
    /\ (forall x y,
          0 <= x < width image -> 0 <= y < height image ->
          exists w, In w windows /\ covers w x y)
    /\ (forall w, In w windows -> inside image w)
    /\ (classify image ws = Tiled ->
        forall w, In w windows ->
        win_width w = Z.min ws (width image)
        /\ win_height w = Z.min ws (height image)
        /\ exists kx ky,
             let rx := kx * (ws - overlap) in
             let ry := ky * (ws - overlap) in
             0 <= rx < width image /\ 0 <= ry < height image
             /\ (width image < rx + win_width w ->
                 origin_x w + win_width w = width image)
             /\ (rx + win_width w <= width image -> origin_x w = rx)
             /\ (height image < ry + win_height w ->
                 origin_y w + win_height w = height image)
             /\ (ry + win_height w <= height image -> origin_y w = ry)
             /\ (ws <= width image -> width image < rx + ws ->
                 origin_x w + ws = width image)
             /\ (ws <= height image -> height image < ry + ws ->
                 origin_y w + ws = height image))
    /\ (exists nine,
          tile image_1280 640 64 = Ok nine
          /\ map origin nine
             = [(0, 0); (576, 0); (640, 0); (0, 576); (576, 576); (640, 576);
                (0, 640); (576, 640); (640, 640)]).
Proof.
  intros HW HH Hov. unfold tile.
  assert (Hvalid : (0 <=? overlap) && (overlap <? ws) = true).
  { apply andb_true_iff. split; [apply Z.leb_le | apply Z.ltb_lt]; lia. }
  rewrite Hvalid.
  assert (Hnine : exists nine,
            tile image_1280 640 64 = Ok nine
            /\ map origin nine
               = [(0, 0); (576, 0); (640, 0); (0, 576); (576, 576); (640, 576);
                  (0, 640); (576, 640); (640, 640)]).
  { eexists. split; reflexivity. }
  destruct (classify image ws) eqn:Hclass.
  - (* Direct: the single window is the image *)
    eexists. split; [reflexivity | ].
    split; [ | split; [ | split; [ | exact Hnine]]].
    + intros x y Hx Hy. eexists. split; [now left | ].
      unfold covers. cbn. lia.
    + intros w [<- | []]. unfold inside. cbn. lia.
    + discriminate.
  - (* Tiled *)
    set (stride := ws - overlap).
    assert (Hstride : 1 <= stride <= ws) by (unfold stride; lia).
    eexists. split; [reflexivity | ].
    assert (Hin : forall w,
              In w (flat_map
                      (fun oy =>
                         map (fun ox =>
                                mkWindow ox oy (extent (width image) ws)
                                         (extent (height image) ws))
                             (axis_origins (width image) ws stride))
                      (axis_origins (height image) ws stride))
              <-> exists ox oy,
                    In ox (axis_origins (width image) ws stride)
                    /\ In oy (axis_origins (height image) ws stride)
                    /\ w = mkWindow ox oy (extent (width image) ws)
                                    (extent (height image) ws)).
    { intros w. rewrite in_flat_map. split.
      - intros (oy & Hy & Hw). apply in_map_iff in Hw as (ox & <- & Hx).
        exists ox, oy. auto.
      - intros (ox & oy & Hx & Hy & ->). exists oy. split; [assumption | ].
        apply in_map_iff. exists ox. auto. }
    split; [ | split; [ | split; [ | exact Hnine]]].
    + intros x y Hx Hy.
      destruct (axis_origins_cover (width image) ws stride x Hstride Hx)
        as (ox & Hox & Hcx).
      destruct (axis_origins_cover (height image) ws stride y Hstride Hy)
        as (oy & Hoy & Hcy).
      eexists. split.
      * apply Hin. exists ox, oy. auto.
      * unfold covers. cbn. lia.
    + intros w Hw. apply Hin in Hw as (ox & oy & Hx & Hy & ->).
      apply axis_origins_inside in Hx; [ | lia ..].
      apply axis_origins_inside in Hy; [ | lia ..].
      unfold inside. cbn. lia.
    + intros _ w Hw. apply Hin in Hw as (ox & oy & Hx & Hy & ->). cbn.
      apply axis_origins_regular in Hx as (kx & Hkx & Hltx & Hx1 & Hx2);
        [ | lia].
      apply axis_origins_regular in Hy as (ky & Hky & Hlty & Hy1 & Hy2);
        [ | lia].
      unfold extent in *.
      split; [reflexivity | ]. split; [reflexivity | ].
      exists kx, ky. fold stride. cbv zeta.
      repeat split; try assumption; try nia; intros; lia.
Qed.

Lemma C3_tile_covers_image_witness :
  exists windows,
    tile image_1280 640 64 = Ok windows
    /\ (forall x y,
          0 <= x < width image_1280 -> 0 <= y < height image_1280 ->
          exists w, In w windows /\ covers w x y)
    /\ (forall w, In w windows -> inside image_1280 w)
    /\ (classify image_1280 640 = Tiled ->
        forall w, In w windows ->
        win_width w = Z.min 640 (width image_1280)
        /\ win_height w = Z.min 640 (height image_1280)
        /\ exists kx ky,
             let rx := kx * (640 - 64) in
             let ry := ky * (640 - 64) in
             0 <= rx < width image_1280 /\ 0 <= ry < height image_1280
             /\ (width image_1280 < rx + win_width w ->
                 origin_x w + win_width w = width image_1280)
             /\ (rx + win_width w <= width image_1280 -> origin_x w = rx)
             /\ (height image_1280 < ry + win_height w ->
                 origin_y w + win_height w = height image_1280)
             /\ (ry + win_height w <= height image_1280 -> origin_y w = ry)
             /\ (640 <= width image_1280 -> width image_1280 < rx + 640 ->
                 origin_x w + 640 = width image_1280)
             /\ (640 <= height image_1280 -> height image_1280 < ry + 640 ->
                 origin_y w + 640 = height image_1280))
    /\ (exists nine,
          tile image_1280 640 64 = Ok nine
          /\ map origin nine
             = [(0, 0); (576, 0); (640, 0); (0, 576); (576, 576); (640, 576);
                (0, 640); (576, 640); (640, 640)]).
Proof.
  apply (C3_tile_covers_image image_1280 640 64); cbn; lia.
Defined.

(** *** CrossTileMerger *)

Lemma qlt_spec (a b : Q) : qlt a b = true <-> (a < b)%Q.
Proof.
  unfold qlt. rewrite negb_true_iff. split.
  - intros H. apply Qnot_le_lt. intros Hle.
    apply Qle_bool_iff in Hle. congruence.
  - intros H. destruct (Qle_bool b a) eqn:Hle; [ | reflexivity].
    apply Qle_bool_iff in Hle. exfalso. apply (Qlt_not_le _ _ H Hle).
Qed.

Lemma before_spec (a b : Detection) :
  before a b = true <->
  (confidence b < confidence a
   \/ (confidence a == confidence b
       /\ (x1 a < x1 b \/ (x1 a == x1 b /\ y1 a < y1 b))))%Q.
Proof.
  unfold before.
  rewrite orb_true_iff, andb_true_iff, orb_true_iff, andb_true_iff.
  rewrite !qlt_spec, !Qeq_bool_iff. reflexivity.
Qed.

Lemma not_after_spec (a b : Detection) :
  not_after a b <->
  ~ (confidence a < confidence b
     \/ (confidence b == confidence a
         /\ (x1 b < x1 a \/ (x1 b == x1 a /\ y1 b < y1 a))))%Q.
Proof.
  unfold not_after. rewrite <- before_spec.
  destruct (before b a); split; congruence.
Qed.

Lemma before_not_after (a b : Detection) : before a b = true -> not_after a b.
Proof.
  intros H. apply not_after_spec. apply before_spec in H. lra.
Qed.

Lemma not_after_trans (a b c : Detection) :
  not_after a b -> not_after b c -> not_after a c.
Proof.
  rewrite !not_after_spec. intros Hab Hbc. lra.
Qed.

Lemma insert_In (d x : Detection) (l : list Detection) :
  In x (insert d l) <-> x = d \/ In x l.
Proof.
  induction l as [ | e l IH]; cbn.
  - intuition.
  - destruct (before e d); cbn; rewrite ?IH; intuition.
Qed.

Lemma sort_In (x : Detection) (l : list Detection) :
  In x (sort l) <-> In x l.
Proof.
  induction l as [ | d l IH]; cbn; [tauto | ].
  rewrite insert_In, IH. intuition.
Qed.

Lemma insert_sorted (d : Detection) (l : list Detection) :
  StronglySorted not_after l -> StronglySorted not_after (insert d l).
Proof.
  induction 1 as [ | e l Hl IH He]; cbn.
  - repeat constructor.
  - destruct (before e d) eqn:Hb.
    + constructor; [assumption | ].
      apply Forall_forall. intros x Hx. apply insert_In in Hx as [-> | Hx].
      * now apply before_not_after.
      * rewrite Forall_forall in He. auto.
    + constructor; [now constructor | ].
      constructor; [exact Hb | ].
      apply Forall_forall. intros x Hx. rewrite Forall_forall in He.
      apply (not_after_trans d e x); [exact Hb | auto].
Qed.

Lemma sort_sorted (l : list Detection) : StronglySorted not_after (sort l).
Proof.
  induction l as [ | d l IH]; cbn; [constructor | now apply insert_sorted].
Qed.

(** Sorting a sorted sequence changes nothing. *)
Lemma sort_fixed (l : list Detection) :
  StronglySorted not_after l -> sort l = l.
Proof.
  induction 1 as [ | d l Hl IH Hd]; cbn; [reflexivity | ].
  rewrite IH. destruct l as [ | e l']; [reflexivity | ].
  cbn. inversion Hd as [ | ? ? Hde _]; subst.
  unfold not_after in Hde. now rewrite Hde.
Qed.

Lemma filter_sorted (f : Detection -> bool) (l : list Detection) :
  StronglySorted not_after l -> StronglySorted not_after (filter f l).
Proof.
  induction 1 as [ | d l Hl IH Hd]; cbn; [constructor | ].
  destruct (f d); [ | assumption].
  constructor; [assumption | ].
  apply Forall_forall. intros x Hx. apply filter_In in Hx as [Hx _].
  rewrite Forall_forall in Hd. auto.
Qed.

Lemma nms_In (iou_threshold : Q) (l : list Detection) (e : Detection) :
  In e (nms iou_threshold l) -> In e l.
Proof.
  funelim (nms iou_threshold l).
  - intros [].
  - cbn. intros [<- | Hin]; [now left | right].
    apply H in Hin. now apply filter_In in Hin.
Qed.

Lemma nms_nonempty (iou_threshold : Q) (l : list Detection) :
  l <> [] -> nms iou_threshold l <> [].
Proof.
  destruct l; [congruence | ]. simp nms. discriminate.
Qed.

Lemma nms_nil (iou_threshold : Q) (l : list Detection) : nms iou_threshold l = [] -> l = [].
Proof.
  destruct l; [reflexivity | ]. simp nms. discriminate.
Qed.

Lemma nms_independent (iou_threshold : Q) (l : list Detection) :
  independent iou_threshold (nms iou_threshold l).
Proof.
  funelim (nms iou_threshold l).
  - exact I.
  - cbn. split; [ | assumption].
    apply Forall_forall. intros e He. apply nms_In in He.
    now apply filter_In in He.
Qed.

Lemma filter_all (f : Detection -> bool) (l : list Detection) :
  Forall (fun e => f e = true) l -> filter f l = l.
Proof.
  induction 1 as [ | e l He _ IH]; cbn; [reflexivity | ].
  now rewrite He, IH.
Qed.

(** Suppression keeps an independent sequence as it is. *)
Lemma nms_fixed (iou_threshold : Q) (l : list Detection) :
  independent iou_threshold l -> nms iou_threshold l = l.
Proof.
  induction l as [ | d rest IH]; simp nms; [reflexivity | ].
  intros [Hd Hrest]. rewrite (filter_all _ _ Hd). now rewrite IH.
Qed.

Lemma nms_sorted (iou_threshold : Q) (l : list Detection) :
  StronglySorted not_after l -> StronglySorted not_after (nms iou_threshold l).
Proof.
  funelim (nms iou_threshold l).
  - constructor.
  - intros Hs. inversion Hs as [ | ? ? Hrest Hd]; subst.
    constructor.
    + apply H. now apply filter_sorted.
    + apply Forall_forall. intros e He. apply nms_In in He.
      apply filter_In in He as [He _]. rewrite Forall_forall in Hd. auto.
Qed.

Lemma kept_in_class (iou_threshold : Q) (detections : list Detection) (c : Z) (d : Detection) :
  In d (kept iou_threshold detections c) -> in_class c d = true.
Proof.
  unfold kept. intros H. apply nms_In, sort_In, filter_In in H. tauto.
Qed.

(** Suppressing again within a class keeps what was kept. *)
Lemma kept_fixed (iou_threshold : Q) (detections : list Detection) (c : Z) :
  nms iou_threshold (sort (kept iou_threshold detections c))
  = kept iou_threshold detections c.
Proof.
  rewrite sort_fixed.
  - apply nms_fixed. apply nms_independent.
  - apply nms_sorted, sort_sorted.
Qed.

(** *** The classes of a sequence and of a merged sequence *)

Lemma class_ids_In (l : list Detection) (c : Z) :
  In c (class_ids l) <-> exists d, In d l /\ class_id d = c.
Proof.
  induction l as [ | d l IH]; cbn.
  - split; [intros [] | intros (d & [] & _)].
  - rewrite filter_In, IH. split.
    + intros [<- | ((e & He & <-) & _)]; eauto.
    + intros (e & [<- | He] & <-); [now left | ].
      destruct (Z.eq_dec (class_id e) (class_id d)) as [Heq | Hne];
        [now left | right].
      split; [eauto | ]. apply negb_true_iff. now apply Z.eqb_neq.
Qed.

Lemma class_ids_NoDup (l : list Detection) : NoDup (class_ids l).
Proof.
  induction l as [ | d l IH]; cbn; constructor.
  - intros Hin. apply filter_In in Hin as [_ Hne].
    now rewrite Z.eqb_refl in Hne.
  - now apply NoDup_filter.
Qed.

Lemma filter_twice (f : Z -> bool) (l : list Z) :
  filter f (filter f l) = filter f l.
Proof.
  induction l as [ | c l IH]; cbn; [reflexivity | ].
  destruct (f c) eqn:Hf; cbn; rewrite ?Hf, IH; reflexivity.
Qed.

Lemma filter_absent (c : Z) (l : list Z) :
  ~ In c l -> filter (fun c' => negb (c' =? c)) l = l.
Proof.
  induction l as [ | c' l IH]; cbn; [reflexivity | ].
  intros Hnot. destruct (Z.eqb_spec c' c) as [-> | Hne]; cbn.
  - exfalso. apply Hnot. now left.
  - rewrite IH; [reflexivity | ]. intros Hin. apply Hnot. now right.
Qed.

(** A non-empty block of class [c] in front contributes [c] first. *)
Lemma class_ids_block (c : Z) (b l : list Detection) :
  b <> [] ->
  (forall d, In d b -> in_class c d = true) ->
  class_ids (b ++ l) = c :: filter (fun c' => negb (c' =? c)) (class_ids l).
Proof.
  induction b as [ | d b IH]; [congruence | ].
  intros _ Hb.
  assert (Hd : class_id d = c).
  { apply Z.eqb_eq. apply (Hb d). now left. }
  cbn. rewrite Hd. f_equal.
  destruct b as [ | d' b']; [reflexivity | ].
  rewrite IH; [ | discriminate | intros e He; apply Hb; now right].
  cbn. rewrite Z.eqb_refl. cbn. apply filter_twice.
Qed.

Lemma class_ids_flat_map (block : Z -> list Detection) (cs : list Z) :
  NoDup cs ->
  (forall c, In c cs -> block c <> []) ->
  (forall c d, In c cs -> In d (block c) -> in_class c d = true) ->
  class_ids (flat_map block cs) = cs.
Proof.
  induction 1 as [ | c cs Hc Hcs IH]; intros Hne Hcl; cbn; [reflexivity | ].
  rewrite (class_ids_block c).
  - rewrite IH.
    + now rewrite filter_absent.
    + intros c' Hc'. apply Hne. now right.
    + intros c' d Hc'. apply Hcl. now right.
  - apply Hne. now left.
  - intros d. apply Hcl. now left.
Qed.

Lemma filter_none (f : Detection -> bool) (l : list Detection) :
  (forall d, In d l -> f d = false) -> filter f l = [].
Proof.
  induction l as [ | d l IH]; cbn; [reflexivity | ].
  intros H. rewrite (H d (or_introl eq_refl)). apply IH.
  intros e He. apply H. now right.
Qed.

Lemma in_class_other (c c' : Z) (d : Detection) :
  c <> c' -> in_class c' d = true -> in_class c d = false.
Proof.
  unfold in_class. intros Hne H. apply Z.eqb_eq in H.
  apply Z.eqb_neq. congruence.
Qed.

Lemma filter_in_class_flat_map
    (block : Z -> list Detection) (cs : list Z) (c : Z) :
  NoDup cs ->
  (forall c' d, In c' cs -> In d (block c') -> in_class c' d = true) ->
  In c cs ->
  filter (in_class c) (flat_map block cs) = block c.
Proof.
  induction 1 as [ | c0 cs Hc0 Hcs IH]; intros Hcl Hin; [destruct Hin | ].
  cbn. rewrite filter_app. destruct Hin as [-> | Hin].
  - rewrite filter_all; [ | apply Forall_forall; intros d; apply Hcl; now left].
    rewrite filter_none; [apply app_nil_r | ].
    intros d Hd. apply in_flat_map in Hd as (c' & Hc' & Hd).
    apply (in_class_other c c'); [congruence | ].
    apply Hcl; [now right | assumption].
  - rewrite filter_none.
    + apply IH; [ | assumption]. intros c' d Hc'. apply Hcl. now right.
    + intros d Hd. apply (in_class_other c c0); [congruence | ].
      apply Hcl; [now left | assumption].
Qed.

Lemma flat_map_agree (f g : Z -> list Detection) (cs : list Z) :
  (forall c, In c cs -> f c = g c) -> flat_map f cs = flat_map g cs.
Proof.
  induction cs as [ | c cs IH]; cbn; [reflexivity | ].
  intros H. rewrite (H c (or_introl eq_refl)), IH; [reflexivity | ].
  intros c' Hc'. apply H. now right.
Qed.

Lemma merge_kept (detections : list Detection) (iou_threshold : Q) :
  merge detections iou_threshold
  = flat_map (kept iou_threshold detections) (class_ids detections).
Proof. reflexivity. Qed.

Lemma kept_nonempty (iou_threshold : Q) (detections : list Detection) (c : Z) :
  In c (class_ids detections) -> kept iou_threshold detections c <> [].
Proof.
  intros Hc Hnil. apply class_ids_In in Hc as (d & Hd & Hcd).
  unfold kept in Hnil. apply nms_nil in Hnil.
  assert (Hin : In d (sort (filter (in_class c) detections))).
  { apply sort_In, filter_In. split; [assumption | ].
    unfold in_class. now apply Z.eqb_eq. }
  rewrite Hnil in Hin. destruct Hin.
Qed.

(** The suppression and preservation scenarios of section 8. *)
Example merge_suppresses_duplicate :
  (iou strong_box weak_box == 0.85)%Q
  /\ merge [weak_box; strong_box] 0.5 = [strong_box].
Proof. split; reflexivity. Qed.

Example merge_preserves_distinct :
  (iou strong_box far_box == 0)%Q
  /\ merge [weak_box; far_box; strong_box] 0.5 = [strong_box; far_box].
Proof. split; reflexivity. Qed.

(** C4: [merge] is idempotent: merging the output of [merge] again, with
    the same threshold, returns that output, element for element and in
    the same order. *)
Theorem C4_merge_idempotent (detections : list Detection) (iou_threshold : Q) :
  merge (merge detections iou_threshold) iou_threshold
  = merge detections iou_threshold.
Proof.
  set (cs := class_ids detections).
  assert (Hcl : forall c d, In c cs -> In d (kept iou_threshold detections c) ->
                            in_class c d = true).
  { intros c d _. apply kept_in_class. }
  assert (Hids : class_ids (merge detections iou_threshold) = cs).
  { rewrite merge_kept. apply class_ids_flat_map.
    - apply class_ids_NoDup.
    - intros c. apply kept_nonempty.
    - exact Hcl. }
  rewrite (merge_kept (merge detections iou_threshold)), Hids.
  rewrite (merge_kept detections). fold cs.
  apply flat_map_agree. intros c Hc. unfold kept at 1.
  rewrite filter_in_class_flat_map;
    [apply kept_fixed | apply class_ids_NoDup | exact Hcl | exact Hc].
Qed.

End CoreFacts.

(* ================================================================== *)
(** ** Properties of the zoom handlers *)
(* ================================================================== *)

Module ViewerFacts.
Import Viewer.

Ltac qle_cases :=
  repeat match goal with
  | |- context [Qle_bool ?a ?b] =>
      let H := fresh "H" in
      destruct (Qle_bool a b) eqn:H;
      [ apply Qle_bool_iff in H
      | assert (~ (a <= b)%Q) by (rewrite <- Qle_bool_iff; congruence);
        clear H ]
  end.

(** Clamping a number that is not [NaN] lands in the interval. *)
Lemma clamp_in_range (x : num) :
  x <> NaN -> in_range (Math_min (Math_max x (Fin 0.1)) (Fin 8)).
Proof.
  destruct x as [ | | | q]; intros Hx; try congruence; cbn.
  - split; [discriminate | apply Qle_refl].
  - split; [apply Qle_refl | discriminate].
  - qle_cases; lra.
Qed.

Lemma zoomIn_in_range (prev : num) : in_range prev -> in_range (zoomIn prev).
Proof.
  destruct prev as [ | | | q]; cbn; try tauto.
  intros [Hlo Hhi]. qle_cases; lra.
Qed.

Lemma zoomOut_in_range (prev : num) : in_range prev -> in_range (zoomOut prev).
Proof.
  destruct prev as [ | | | q]; cbn; try tauto.
  intros [Hlo Hhi]. unfold Qdiv. change (/ 1.5)%Q with (10 # 15)%Q.
  qle_cases; lra.
Qed.

Lemma handleWheel_in_range (deltaY scale : num) :
  in_range scale -> in_range (handleWheel deltaY scale).
Proof.
  intros Hs. unfold handleWheel. apply clamp_in_range.
  destruct scale as [ | | | q]; cbn in Hs; try tauto.
  destruct (gt deltaY (Fin 0)); discriminate.
Qed.

Lemma Math_sqrt_nonneg (q : Q) : (0 <= Math_sqrt q)%Q.
Proof.
  unfold Math_sqrt. destruct (Qnum (Qred q)); try apply Qle_refl.
  rewrite Qred_correct.
  apply Qmult_le_0_compat; [ | apply Qpower_0_le; discriminate].
  change 0%Q with (inject_Z 0). rewrite <- Zle_Qle.
  match goal with
  | |- context [scaled_root ?n ?d ?k / 2] =>
      assert (H : 0 <= scaled_root n d k / 2)
  end.
  { apply Z.div_pos; [ | lia]. unfold scaled_root.
    destruct (0 <=? _); apply Z.sqrt_nonneg. }
  destruct (if Z.odd _ then _ else _); lia.
Qed.

(** The first event of a pinch records distance and scale and leaves the
    scale alone. *)
Lemma handleTouchZoom_first (touch1 touch2 : Touch) (v : View) :
  initialPinchDistance (dataset v) = None ->
  handleTouchZoom [touch1; touch2] v
  = mkView (scale v)
           (mkDataset (Some (Fin (pinch_distance touch1 touch2)))
                      (Some (scale v))).
Proof. intros H. unfold handleTouchZoom. now rewrite H. Qed.

(** A later event of a pinch clamps the scale into the interval, unless
    the touches coincide now and coincided when the pinch began. *)
Lemma handleTouchZoom_in_range (touch1 touch2 : Touch) (v : View)
    (d0 : Q) (s0 : num) :
  dataset v = mkDataset (Some (Fin d0)) (Some s0) ->
  in_range s0 -> (0 <= d0)%Q ->
  ~ (d0 == 0 /\ pinch_distance touch1 touch2 == 0)%Q ->
  in_range (scale (handleTouchZoom [touch1; touch2] v)).
Proof.
  intros Hds Hs0 Hd0 Hnz. unfold handleTouchZoom. rewrite Hds. cbn [
    initialPinchDistance initialScale scale].
  apply clamp_in_range.
  destruct s0 as [ | | | q0]; cbn in Hs0; try tauto.
  pose proof (Math_sqrt_nonneg
                ((clientX touch2 - clientX touch1) ^ 2
                 + (clientY touch2 - clientY touch1) ^ 2)) as Hd.
  fold (pinch_distance touch1 touch2) in Hd.
  unfold div. destruct (Qeq_bool d0 0) eqn:Hz.
  - apply Qeq_bool_iff in Hz.
    destruct (pinch_distance touch1 touch2 ?= 0)%Q eqn:Hc.
    + apply Qeq_alt in Hc. tauto.
    + apply Qlt_alt in Hc. lra.
    + cbn. assert (Hq0 : (q0 ?= 0)%Q = Gt) by (apply Qgt_alt; lra).
      rewrite Hq0. discriminate.
  - cbn. discriminate.
Qed.

(** C10 fails for the pinch zoom: from the initial scale 0.5, a pinch
    whose two touches coincide when it begins and at the next move
    computes 0 / 0, and neither [Math.max] nor [Math.min] clamps [NaN]:
    the scale leaves the interval [0.1, 8]. *)
Theorem C10_pinch_of_coincident_touches_escapes :
  let v1 := handleTouchZoom coincident_touches initial_view in
  let v2 := handleTouchZoom coincident_touches v1 in
  in_range (scale initial_view)
  /\ scale v1 = scale initial_view
  /\ scale v2 = NaN
  /\ ~ in_range (scale v2).
Proof.
  cbv zeta. repeat split.
  - discriminate.
  - discriminate.
  - intros H. exact H.
Qed.

End ViewerFacts.

(* ================================================================== *)
(** ** Further properties of the analysis client *)
(* ================================================================== *)

Module AppUiFacts.
Import App AppUi AppFacts.

Lemma draw_prediction_geometry (x1 y1 x2 y2 : Q) :
  let d := draw_prediction x1 y1 x2 y2 in
  (rx (box d) == x1 /\ ry (box d) == y1
   /\ rx (box d) + rwidth (box d) == x2
   /\ ry (box d) + rheight (box d) == y2)%Q
  /\ label_on_box d.
Proof.
  cbv zeta. unfold label_on_box, draw_prediction, qmax. cbn.
  destruct (Qle_bool (x2 - x1) 120) eqn:H.
  - apply Qle_bool_iff in H. repeat split; lra.
  - assert (~ (x2 - x1 <= 120)%Q) by (rewrite <- Qle_bool_iff; congruence).
    repeat split; lra.
Qed.

Lemma is_Prediction_bbox (p : json) :
  is_Prediction p = true ->
  exists x1 y1 x2 y2, bbox_of p = Some (x1, y1, x2, y2).
Proof.
  unfold is_Prediction. intros H.
  repeat (apply andb_true_iff in H; destruct H as [H ?]).
  unfold bbox_of.
  match goal with
  | Hb : required "bbox" is_bbox p = true |- _ =>
      unfold required in Hb; destruct (get "bbox" p) as [b | ];
      [ | discriminate]; unfold is_bbox in Hb
  end.
  destruct b as [ | | | | items | ]; try discriminate.
  destruct items as [ | [ | | a | | | ] items]; try discriminate.
  destruct items as [ | [ | | b | | | ] items]; try discriminate.
  destruct items as [ | [ | | c | | | ] items]; try discriminate.
  destruct items as [ | [ | | d | | | ] items]; try discriminate.
  destruct items; try discriminate.
  now exists a, b, c, d.
Qed.

Lemma draw_all_typed (predictions : list json) :
  forallb is_Prediction predictions = true ->
  exists ds,
    draw_all predictions = Some ds
    /\ List.length ds = List.length predictions
    /\ Forall label_on_box ds.
Proof.
  induction predictions as [ | p rest IH]; cbn.
  - intros _. exists []. repeat split. constructor.
  - intros H. apply andb_true_iff in H as [Hp Hrest].
    destruct (IH Hrest) as (ds & Hds & Hlen & Hall).
    destruct (is_Prediction_bbox p Hp) as (a & b & c & d & Hb).
    rewrite Hb, Hds. eexists. split; [reflexivity | ].
    split; [cbn; now rewrite Hlen | ].
    constructor; [apply draw_prediction_geometry | assumption].
Qed.

(** X1: whatever the service answers, once [handleAnalyze] has settled
    for a selected file the page is idle again: [isLoading] and
    [isUploading] are false and [uploadProgress] is 0, so the analysis
    button is enabled and the progress panel is hidden; the selected
    file and its preview URL are unchanged. *)
Theorem handleAnalyze_settles_idle (br : Browser) (s : AppState) (file : File) :
  selectedFile s = Some file ->
  let s' := fst (handleAnalyze br s) in
  isLoading s' = false
  /\ isUploading s' = false
  /\ uploadProgress s' = 0
  /\ analyze_disabled s' = false
  /\ progress_visible s' = false
  /\ selectedFile s' = Some file
  /\ previewUrl s' = previewUrl s.
Proof.
  intros Hfile. cbv zeta.
  destruct (handleAnalyze_frame br s file Hfile)
    as (Hl & Hu & Hp & Hsel & Hprev).
  unfold analyze_disabled, progress_visible.
  rewrite Hl, Hu, Hp, Hsel, Hfile. cbn. auto 10.
Qed.

Lemma handleAnalyze_settles_idle_witness :
  let s' := fst (handleAnalyze refusing_browser sample_state) in
  isLoading s' = false
  /\ isUploading s' = false
  /\ uploadProgress s' = 0
  /\ analyze_disabled s' = false
  /\ progress_visible s' = false
  /\ selectedFile s' = Some sample_file
  /\ previewUrl s' = previewUrl sample_state.
Proof.
  exact (handleAnalyze_settles_idle refusing_browser sample_state sample_file
           eq_refl).
Defined.

Lemma upload_location_Some (br : Browser) (file : File) (data : json) :
  upload_location br file = Some data ->
  exists r,
    fetch br presign_url (presign_body file) = FetchResolves r
    /\ ok r = true /\ json_body r = JsonValue data /\ data <> JNull.
Proof.
  unfold upload_location. intros H.
  destruct (fetch br presign_url (presign_body file)) as [t | r];
    [discriminate | ].
  exists r. destruct (ok r); [ | discriminate].
  destruct (json_body r) as [t | j]; [discriminate | ].
  destruct j; inversion H; repeat split; congruence.
Qed.

(** X2: when all three steps succeed, the stored result is the body of
    the analysis answer, an error left by an earlier run is cleared and
    the log holds the three requests; and when that body has the
    declared type [AnalysisResult], the guard of the results section
    holds, the preview is no longer shown, and the section draws one box
    for each prediction of the body. *)
Theorem handleAnalyze_success_shows_result
    (br : Browser) (s : AppState) (file : File) (data result : json) :
  selectedFile s = Some file ->
  upload_location br file = Some data ->
  upload_completed br file data = true ->
  analysis_reply br data = Some result ->
  let s' := fst (handleAnalyze br s) in
  analysisResult s' = nullable result
  /\ error s' = None
  /\ error_visible s' = false
  /\ snd (handleAnalyze br s)
     = [presign_request file; upload_request file data; analyze_request data]
  /\ (is_AnalysisResult result = true ->
      analysisResult s' = Some result
      /\ results_visible s' = true
      /\ preview_visible s' = false
      /\ exists predictions drawings,
           get "predictions" result = Some (JArr predictions)
           /\ renderImageWithBoundingBoxes s' = Drawn drawings
           /\ List.length drawings = List.length predictions).
Proof.
  intros Hfile Hloc Hup Han. cbv zeta.
  destruct (handleAnalyze_success br s file data result Hfile Hloc Hup Han)
    as [Hres Herr].
  assert (Htr : snd (handleAnalyze br s)
                = [presign_request file; upload_request file data;
                   analyze_request data]).
  { destruct (handleAnalyze_log br s file Hfile)
      as [Htr | (data' & Hloc' & [Htr | Htr])].
    - pose proof (handleAnalyze_run br s file Hfile) as R.
      rewrite Htr in R. inversion R; congruence.
    - pose proof (handleAnalyze_run br s file Hfile) as R.
      rewrite Htr in R. inversion R; congruence.
    - congruence. }
  split; [assumption | ]. split; [assumption | ].
  split; [unfold error_visible; now rewrite Herr | ].
  split; [assumption | ].
  intros Htyped.
  assert (Hsome : nullable result = Some result).
  { destruct result; try reflexivity. discriminate Htyped. }
  assert (Htruthy : truthy (Some result) = true).
  { destruct result; try discriminate Htyped. reflexivity. }
  rewrite Hsome in Hres.
  unfold results_visible, preview_visible, renderImageWithBoundingBoxes.
  rewrite Hres, Htruthy. cbn [negb].
  split; [reflexivity | ]. split; [reflexivity | ].
  split; [apply andb_false_r | ].
  unfold is_AnalysisResult in Htyped.
  repeat (apply andb_true_iff in Htyped; destruct Htyped as [Htyped ?]).
  match goal with
  | Hp : required "predictions" _ _ = true |- _ =>
      unfold required in Hp;
      destruct (get "predictions" result) as [[ | | | | predictions | ] | ];
      try discriminate Hp;
      destruct (draw_all_typed predictions Hp) as (ds & Hds & Hlen & _)
  end.
  exists predictions, ds. rewrite Hds. auto.
Qed.

Lemma handleAnalyze_success_shows_result_witness :
  let s' := fst (handleAnalyze sample_browser sample_state) in
  analysisResult s' = nullable readme_response
  /\ error s' = None
  /\ error_visible s' = false
  /\ snd (handleAnalyze sample_browser sample_state)
     = [presign_request sample_file;
        upload_request sample_file sample_location;
        analyze_request sample_location]
  /\ (is_AnalysisResult readme_response = true ->
      analysisResult s' = Some readme_response
      /\ results_visible s' = true
      /\ preview_visible s' = false
      /\ exists predictions drawings,
           get "predictions" readme_response = Some (JArr predictions)
           /\ renderImageWithBoundingBoxes s' = Drawn drawings
           /\ List.length drawings = List.length predictions).
Proof.
  apply (handleAnalyze_success_shows_result sample_browser sample_state
           sample_file sample_location readme_response); reflexivity.
Defined.

(** Rewrite with what is known about the answers, then compute. *)
Ltac known_answers :=
  repeat (cbn;
          match goal with
          | H : fetch ?br ?u ?b = _ |- context [fetch ?br ?u' ?b'] =>
              rewrite H
          | H : ok ?r = _ |- context [ok ?r] => rewrite H
          | H : json_body ?r = _ |- context [json_body ?r] => rewrite H
          | H : xhr_put ?br ?u ?c ?f = _ |- context [xhr_put ?br ?u ?c ?f] =>
              rewrite H
          | H : (?st =? 200) = _ |- context [?st =? 200] => rewrite H
          end); cbn.

Ltac start_run Hfile :=
  cbv zeta; unfold handleAnalyze; rewrite Hfile;
  unfold try_block; step_flow.

(** X3: when the upload location was obtained but the upload does not
    end with status 200, the error shown is 'S3 upload failed: <status>
    <statusText>' for a load event with another status, 'S3 upload
    network error' for an error event and 'S3 upload timeout' for a
    timeout; the analysis request is not sent and the stored result is
    untouched. *)
Theorem upload_failure_message
    (br : Browser) (s : AppState) (file : File) (data : json) :
  selectedFile s = Some file ->
  upload_location br file = Some data ->
  upload_completed br file data = false ->
  let s' := fst (handleAnalyze br s) in
  error s'
  = Some (upload_error (xhr_put br (get "presigned_url" data)
                                (content_type_of file) file))
  /\ snd (handleAnalyze br s)
     = [presign_request file; upload_request file data]
  /\ analysisResult s' = analysisResult s.
Proof.
  intros Hfile Hloc Hup.
  destruct (upload_location_Some br file data Hloc)
    as (r & Hfetch & Hok & Hbody & Hnn).
  unfold upload_completed in Hup.
  start_run Hfile.
  destruct (xhr_put br (get "presigned_url" data) (content_type_of file) file)
    as [status statusText | | ] eqn:Hxhr;
    destruct data; try congruence; cbn in Hxhr; known_answers;
    repeat split; reflexivity.
Qed.

Lemma upload_failure_message_witness :
  let s' := fst (handleAnalyze refusing_browser sample_state) in
  error s' = Some "S3 upload failed: 403 Forbidden"
  /\ snd (handleAnalyze refusing_browser sample_state)
     = [presign_request sample_file;
        upload_request sample_file sample_location]
  /\ analysisResult s' = analysisResult sample_state.
Proof.
  exact (upload_failure_message refusing_browser sample_state sample_file
           sample_location eq_refl eq_refl eq_refl).
Defined.

Lemma detail_or_string (br : Browser) (d fallback : string) :
  d <> "" -> detail_or br (Some (JStr d)) fallback = d.
Proof.
  intros Hd. unfold detail_or. cbn.
  destruct (String.eqb_spec d ""); [contradiction | reflexivity].
Qed.

Lemma detail_or_falsy (br : Browser) (detail : option json) (fallback : string) :
  truthy detail = false -> detail_or br detail fallback = fallback.
Proof. intros H. unfold detail_or. now rewrite H. Qed.

(** X4: when the service refuses the request for an upload location
    (a status that is not ok, with a JSON body that is not null), the
    error shown is the body's [detail] when that is a non-empty string
    and 'Failed to get upload URL' when [detail] is missing or falsy;
    nothing is uploaded and no analysis is requested. *)
Theorem presign_refusal_message
    (br : Browser) (s : AppState) (file : File) (r : Response)
    (errorData : json) :
  selectedFile s = Some file ->
  fetch br presign_url (presign_body file) = FetchResolves r ->
  ok r = false ->
  json_body r = JsonValue errorData ->
  errorData <> JNull ->
  let s' := fst (handleAnalyze br s) in
  (forall d, get "detail" errorData = Some (JStr d) -> d <> "" ->
             error s' = Some d)
  /\ (truthy (get "detail" errorData) = false ->
      error s' = Some "Failed to get upload URL")
  /\ snd (handleAnalyze br s) = [presign_request file]
  /\ analysisResult s' = analysisResult s.
Proof.
  intros Hfile Hfetch Hok Hbody Hnn.
  assert (Herr : error (fst (handleAnalyze br s))
                 = Some (detail_or br (get "detail" errorData)
                                   "Failed to get upload URL")
                 /\ snd (handleAnalyze br s) = [presign_request file]
                 /\ analysisResult (fst (handleAnalyze br s))
                    = analysisResult s).
  { start_run Hfile. known_answers.
    destruct errorData; try congruence; cbn; repeat split; reflexivity. }
  cbv zeta. destruct Herr as (Herr & Htr & Hres). rewrite Herr.
  repeat split; try assumption.
  - intros d Hd Hne. rewrite Hd. now rewrite detail_or_string.
  - intros Hf. now rewrite detail_or_falsy.
Qed.

Lemma presign_refusal_message_witness :
  let s' := fst (handleAnalyze denying_browser sample_state) in
  (forall d,
      get "detail" (JObj [("detail", JStr "S3 is not configured")])
      = Some (JStr d) -> d <> "" -> error s' = Some d)
  /\ (truthy (get "detail" (JObj [("detail", JStr "S3 is not configured")]))
      = false -> error s' = Some "Failed to get upload URL")
  /\ snd (handleAnalyze denying_browser sample_state)
     = [presign_request sample_file]
  /\ analysisResult s' = analysisResult sample_state.
Proof.
  apply (presign_refusal_message denying_browser sample_state sample_file
           (mkResponse false
              (JsonValue (JObj [("detail", JStr "S3 is not configured")]))));
    [reflexivity | reflexivity | reflexivity | reflexivity | discriminate].
Defined.

Lemma upload_completed_true (br : Browser) (file : File) (data : json) :
  upload_completed br file data = true ->
  exists statusText,
    xhr_put br (get "presigned_url" data) (content_type_of file) file
    = XhrLoad 200 statusText.
Proof.
  unfold upload_completed. intros H.
  destruct (xhr_put br (get "presigned_url" data) (content_type_of file) file)
    as [status txt | | ]; try discriminate.
  apply Z.eqb_eq in H. subst. now exists txt.
Qed.

(** X5: when location and upload went through and the service refuses
    the analysis (a status that is not ok, with a JSON body that is not
    null), the error shown is the body's [detail] when that is a
    non-empty string and 'Analysis failed' when [detail] is missing or
    falsy; all three requests were sent and the stored result is
    untouched. *)
Theorem analysis_refusal_message
    (br : Browser) (s : AppState) (file : File) (data : json)
    (r : Response) (errorData : json) :
  selectedFile s = Some file ->
  upload_location br file = Some data ->
  upload_completed br file data = true ->
  fetch br analyze_url (obj1 "s3_key" (get "s3_key" data)) = FetchResolves r ->
  ok r = false ->
  json_body r = JsonValue errorData ->
  errorData <> JNull ->
  let s' := fst (handleAnalyze br s) in
  (forall d, get "detail" errorData = Some (JStr d) -> d <> "" ->
             error s' = Some d)
  /\ (truthy (get "detail" errorData) = false ->
      error s' = Some "Analysis failed")
  /\ snd (handleAnalyze br s)
     = [presign_request file; upload_request file data; analyze_request data]
  /\ analysisResult s' = analysisResult s.
Proof.
  intros Hfile Hloc Hup Hfetch Hok Hbody Hnn.
  destruct (upload_location_Some br file data Hloc)
    as (r0 & Hfetch0 & Hok0 & Hbody0 & Hnn0).
  destruct (upload_completed_true br file data Hup) as (txt & Hxhr).
  assert (Herr : error (fst (handleAnalyze br s))
                 = Some (detail_or br (get "detail" errorData) "Analysis failed")
                 /\ snd (handleAnalyze br s)
                    = [presign_request file; upload_request file data;
                       analyze_request data]
                 /\ analysisResult (fst (handleAnalyze br s))
                    = analysisResult s).
  { start_run Hfile. cbn. rewrite Hfetch0. cbn. rewrite Hok0. cbn.
    rewrite Hbody0. cbn.
    destruct data; try congruence; cbn in Hxhr, Hfetch |- *;
      rewrite Hxhr; cbn; rewrite Hfetch; cbn; rewrite Hok; cbn;
      rewrite Hbody; cbn;
      destruct errorData; try congruence; cbn; repeat split; reflexivity. }
  cbv zeta. destruct Herr as (Herr & Htr & Hres). rewrite Herr.
  repeat split; try assumption.
  - intros d Hd Hne. rewrite Hd. now rewrite detail_or_string.
  - intros Hf. now rewrite detail_or_falsy.
Qed.

Lemma analysis_refusal_message_witness :
  let s' := fst (handleAnalyze failing_analysis_browser sample_state) in
  (forall d, get "detail" (JObj []) = Some (JStr d) -> d <> "" ->
             error s' = Some d)
  /\ (truthy (get "detail" (JObj [])) = false ->
      error s' = Some "Analysis failed")
  /\ snd (handleAnalyze failing_analysis_browser sample_state)
     = [presign_request sample_file;
        upload_request sample_file sample_location;
        analyze_request sample_location]
  /\ analysisResult s' = analysisResult sample_state.
Proof.
  apply (analysis_refusal_message failing_analysis_browser sample_state
           sample_file sample_location
           (mkResponse false (JsonValue (JObj []))));
    [reflexivity | reflexivity | reflexivity | reflexivity | reflexivity
    | reflexivity | discriminate].
Defined.

(** X6: when the first [fetch] rejects, the error shown is the message
    of the rejection when it is an [Error] and 'An unknown error
    occurred' otherwise; that request is the only one sent and the
    stored result is untouched. *)
Theorem rejected_fetch_message
    (br : Browser) (s : AppState) (file : File) (t : thrown) :
  selectedFile s = Some file ->
  fetch br presign_url (presign_body file) = FetchRejects t ->
  let s' := fst (handleAnalyze br s) in
  error s' = Some (match t with
                   | ThrowError message => message
                   | ThrowOther => "An unknown error occurred"
                   end)
  /\ snd (handleAnalyze br s) = [presign_request file]
  /\ analysisResult s' = analysisResult s.
Proof.
  intros Hfile Hfetch. start_run Hfile. known_answers.
  destruct t; repeat split; reflexivity.
Qed.

Lemma rejected_fetch_message_witness :
  let s' := fst (handleAnalyze offline_browser sample_state) in
  error s' = Some "Failed to fetch"
  /\ snd (handleAnalyze offline_browser sample_state)
     = [presign_request sample_file]
  /\ analysisResult s' = analysisResult sample_state.
Proof.
  exact (rejected_fetch_message offline_browser sample_state sample_file
           (ThrowError "Failed to fetch") eq_refl eq_refl).
Defined.

(** X7: after a file has been chosen with [handleFileSelect], a run in
    which some step fails leaves no result at all, whatever was stored
    before the choice: the stored result is empty, an error is set, and
    the chosen file and its preview URL stay. *)
Theorem select_then_failing_run_has_no_result
    (br : Browser) (createObjectURL : File -> string)
    (s : AppState) (file : File) :
  step_fails br file ->
  let s1 := handleFileSelect createObjectURL (Some file) s in
  let s2 := fst (handleAnalyze br s1) in
  analysisResult s1 = None /\ error s1 = None
  /\ analysisResult s2 = None
  /\ results_visible s2 = false
  /\ (exists m, error s2 = Some m)
  /\ selectedFile s2 = Some file
  /\ previewUrl s2 = Some (createObjectURL file).
Proof.
  intros Hfail. cbv zeta.
  set (s1 := handleFileSelect createObjectURL (Some file) s).
  assert (Hfile : selectedFile s1 = Some file) by reflexivity.
  destruct (handleAnalyze_frame br s1 file Hfile) as (_ & _ & _ & Hsel & Hprev).
  pose proof (handleAnalyze_run br s1 file Hfile) as R.
  assert (Hres : analysisResult (fst (handleAnalyze br s1)) = None
                 /\ exists m, error (fst (handleAnalyze br s1)) = Some m).
  { inversion R as [s' m H1 Hr He
                   | data s' m H1 H2 Hr He
                   | data s' m H1 H2 H3 Hr He
                   | data result s' H1 H2 H3 Hr He]; eauto.
    exfalso. destruct Hfail as [Hnone | (data' & Hsome & [Hup | Han])];
      congruence. }
  destruct Hres as [Hres Herr].
  unfold results_visible. rewrite Hres, Hsel, Hprev.
  repeat split; try reflexivity. exact Herr.
Qed.

Lemma select_then_failing_run_has_no_result_witness :
  let s0 := setAnalysisResult (Some readme_response) sample_state in
  let s1 := handleFileSelect (fun _ => "blob:next") (Some sample_file) s0 in
  let s2 := fst (handleAnalyze refusing_browser s1) in
  analysisResult s1 = None /\ error s1 = None
  /\ analysisResult s2 = None
  /\ results_visible s2 = false
  /\ (exists m, error s2 = Some m)
  /\ selectedFile s2 = Some sample_file
  /\ previewUrl s2 = Some "blob:next".
Proof.
  apply (select_then_failing_run_has_no_result refusing_browser
           (fun _ => "blob:next")
           (setAnalysisResult (Some readme_response) sample_state)
           sample_file).
  right. exists sample_location. split; [reflexivity | left; reflexivity].
Defined.

(** X8: [resetAnalysis] empties the page from any state: no preview, no
    results, no error banner, no progress panel and no reset button are
    shown and the analysis button is disabled; [handleAnalyze] invoked
    next sends nothing and only reports that no image is selected; and
    resetting twice is resetting once. *)
Theorem resetAnalysis_empties_page (br : Browser) (s : AppState) :
  let s' := resetAnalysis s in
  preview_visible s' = false
  /\ results_visible s' = false
  /\ error_visible s' = false
  /\ progress_visible s' = false
  /\ reset_visible s' = false
  /\ analyze_disabled s' = true
  /\ handleAnalyze br s'
     = (setError (Some "Please select an image first") s', [])
  /\ resetAnalysis s' = s'.
Proof.
  cbv zeta. repeat split.
Qed.

(** A file is sent in one piece or in several: [loaded] is between zero
    and a positive [total]. *)
Lemma progress_fraction (loaded total : Q) :
  (0 <= loaded)%Q -> (loaded <= total)%Q -> (0 < total)%Q ->
  (0 <= loaded / total /\ loaded / total <= 1)%Q.
Proof.
  intros H0 Hle Hpos. split.
  - apply Qle_shift_div_l; [assumption | ]. lra.
  - apply Qle_shift_div_r; [assumption | ]. lra.
Qed.

Lemma Math_round_between (q : Q) (lo hi : Z) :
  (inject_Z lo <= q)%Q -> (q <= inject_Z hi)%Q ->
  lo <= Math_round q <= hi.
Proof.
  intros Hlo Hhi. unfold Math_round. split.
  - replace lo with (Qfloor (inject_Z lo)) by apply Qfloor_Z.
    apply Qfloor_resp_le. lra.
  - assert (H : (inject_Z (Qfloor (q + (1 # 2))) <= q + (1 # 2))%Q)
      by apply Qfloor_le.
    assert (Hlt : (inject_Z (Qfloor (q + (1 # 2))) < inject_Z (hi + 1))%Q).
    { rewrite inject_Z_plus. change (inject_Z 1) with 1%Q. lra. }
    rewrite <- Zlt_Qlt in Hlt. lia.
Qed.

(** X9: for a progress event with a computable length, a positive
    [total] and [loaded] between 0 and [total], the progress set is an
    integer between 10 and 70, it is 10 when nothing is loaded and 70
    when everything is, it does not decrease when [loaded] grows, and the
    status line never falls back to 'Preparing secure upload...'. *)
Theorem progress_percent_range (loaded total : Q) :
  (0 <= loaded)%Q -> (loaded <= total)%Q -> (0 < total)%Q ->
  exists p,
    progress_percent true loaded total = Some p
    /\ 10 <= p <= 70
    /\ upload_status p <> "Preparing secure upload..."
    /\ progress_percent true 0 total = Some 10
    /\ progress_percent true total total = Some 70
    /\ forall more p',
         (loaded <= more)%Q -> (more <= total)%Q ->
         progress_percent true more total = Some p' -> p <= p'.
Proof.
  intros H0 Hle Hpos.
  assert (Hnz : Qeq_bool total 0 = false).
  { destruct (Qeq_bool total 0) eqn:H; [ | reflexivity].
    apply Qeq_bool_iff in H. lra. }
  unfold progress_percent. rewrite Hnz.
  destruct (progress_fraction loaded total H0 Hle Hpos) as [Hf0 Hf1].
  eexists. split; [reflexivity | ].
  assert (Hrange : 10 <= Math_round (10 + loaded / total * 60) <= 70).
  { generalize dependent (loaded / total)%Q. intros f Hf0 Hf1.
    apply Math_round_between.
    - change (inject_Z 10) with 10%Q. lra.
    - change (inject_Z 70) with 70%Q. lra. }
  split; [exact Hrange | ].
  split.
  { unfold upload_status.
    destruct (Z.ltb_spec (Math_round (10 + loaded / total * 60)) 10);
      [lia | ].
    destruct (Math_round (10 + loaded / total * 60) <? 70); discriminate. }
  split.
  { f_equal. unfold Math_round.
    assert (E : (10 + 0 / total * 60 + (1 # 2) == 21 # 2)%Q).
    { unfold Qdiv. ring. }
    rewrite E. reflexivity. }
  split.
  { f_equal. unfold Math_round.
    assert (E : (10 + total / total * 60 + (1 # 2) == 141 # 2)%Q).
    { field. lra. }
    rewrite E. reflexivity. }
  intros more p' Hm1 Hm2 Hp'. inversion Hp'; subst.
  unfold Math_round. apply Qfloor_resp_le.
  assert (Hdiv : (loaded / total <= more / total)%Q).
  { unfold Qdiv. apply Qmult_le_compat_r; [assumption | ].
    apply Qinv_le_0_compat. lra. }
  generalize dependent (loaded / total)%Q.
  generalize dependent (more / total)%Q. intros. lra.
Qed.

Lemma progress_percent_range_witness :
  exists p,
    progress_percent true 512 2048 = Some p
    /\ 10 <= p <= 70
    /\ upload_status p <> "Preparing secure upload..."
    /\ progress_percent true 0 2048 = Some 10
    /\ progress_percent true 2048 2048 = Some 70
    /\ forall more p',
         (512 <= more)%Q -> (more <= 2048)%Q ->
         progress_percent true more 2048 = Some p' -> p <= p'.
Proof.
  apply (progress_percent_range 512 2048); lra.
Defined.

(** X10: a stored result of the declared type [AnalysisResult] always
    renders: [renderImageWithBoundingBoxes] draws exactly one box per
    prediction, and every label bar sits on its box (same left edge,
    ending where the box begins, at least as wide as the box and at
    least 120 wide, with the text anchor inside). *)
Theorem typed_result_renders (s : AppState) (result : json) :
  analysisResult s = Some result ->
  is_AnalysisResult result = true ->
  exists predictions ds,
    get "predictions" result = Some (JArr predictions)
    /\ renderImageWithBoundingBoxes s = Drawn ds
    /\ List.length ds = List.length predictions
    /\ Forall label_on_box ds.
Proof.
  intros Hres Hty. unfold is_AnalysisResult in Hty.
  repeat (apply andb_true_iff in Hty; destruct Hty as [Hty ?]).
  match goal with
  | Hp : required "predictions" _ result = true |- _ =>
      unfold required in Hp;
      destruct (get "predictions" result) as [ps | ] eqn:Hget;
      [ | discriminate]; unfold is_array_of in Hp;
      destruct ps as [ | | | | predictions | ]; try discriminate;
      destruct (draw_all_typed predictions Hp) as (ds & Hds & Hlen & Hall)
  end.
  exists predictions, ds. split; [reflexivity | ].
  unfold renderImageWithBoundingBoxes. rewrite Hres.
  destruct result; try discriminate. cbn [truthy negb].
  rewrite Hget, Hds. auto.
Qed.

Lemma typed_result_renders_witness :
  exists predictions ds,
    get "predictions" readme_response = Some (JArr predictions)
    /\ renderImageWithBoundingBoxes
         (setAnalysisResult (Some readme_response) sample_state) = Drawn ds
    /\ List.length ds = List.length predictions
    /\ Forall label_on_box ds.
Proof.
  apply (typed_result_renders
           (setAnalysisResult (Some readme_response) sample_state)
           readme_response); reflexivity.
Defined.

End AppUiFacts.

(* ================================================================== *)
(** ** Further properties of the image viewer *)
(* ================================================================== *)

Module PanFacts.
Import Viewer Pan ViewerFacts.

Lemma in_range_nonzero (s : Q) : in_range (Fin s) -> Qeq_bool s 0 = false.
Proof.
  cbn. intros [Hlo _]. destruct (Qeq_bool s 0) eqn:H; [ | reflexivity].
  apply Qeq_bool_iff in H. lra.
Qed.

Lemma in_range_Fin (n : num) : in_range n -> exists q, n = Fin q.
Proof. destruct n; cbn; try tauto. eauto. Qed.

(** Zooming towards a point of the container keeps the image point shown
    there in place. *)
Lemma zoom_towards_fixes_point (px py mx my u v s ns : Q) :
  ~ (s == 0)%Q ->
  (px + u * s == mx)%Q -> (py + v * s == my)%Q ->
  let p := zoom_towards (mkPosition (Fin px) (Fin py)) (Fin mx) (Fin my)
                        (Fin (ns / s)) in
  is_fin (add (x p) (mul (Fin u) (Fin ns))) mx
  /\ is_fin (add (y p) (mul (Fin v) (Fin ns))) my.
Proof.
  intros Hs Hx Hy. cbn. split.
  - rewrite <- Hx. field. exact Hs.
  - rewrite <- Hy. field. exact Hs.
Qed.

(** X11: a wheel event zooms towards the mouse: with the scale in
    [0.1, 8] and a finite position, the new scale is again in the
    interval and the image point that was under the mouse is still under
    it (in exact arithmetic). *)
Theorem wheel_keeps_cursor_point
    (rect : DOMRect) (deltaY : num) (cx cy : Q) (st : ViewerState)
    (s px py u v : Q) :
  scale (view st) = Fin s -> in_range (Fin s) ->
  position st = mkPosition (Fin px) (Fin py) ->
  is_fin (screen_x st (Fin u)) (cx - left rect) ->
  is_fin (screen_y st (Fin v)) (cy - top rect) ->
  let st' := handleWheelEvent (Some rect) deltaY cx cy st in
  in_range (scale (view st'))
  /\ is_fin (screen_x st' (Fin u)) (cx - left rect)
  /\ is_fin (screen_y st' (Fin v)) (cy - top rect).
Proof.
  intros Hscale Hs Hpos Hx Hy. cbv zeta.
  pose proof (handleWheel_in_range deltaY (Fin s) Hs) as Hns.
  destruct (in_range_Fin _ Hns) as (ns & Ens).
  unfold screen_x, screen_y in Hx, Hy. rewrite Hscale, Hpos in Hx, Hy.
  cbn in Hx, Hy.
  unfold handleWheelEvent, screen_x, screen_y. rewrite Hscale, Hpos, Ens.
  cbn [setScale setPosition view position scale].
  split; [rewrite <- Ens; exact Hns | ].
  unfold div. rewrite (in_range_nonzero s Hs).
  apply zoom_towards_fixes_point; try assumption.
  cbn in Hs. lra.
Qed.

(** X12: during a pinch (initial distance and scale recorded, the
    scale in [0.1, 8], the position finite, the two distances not both
    zero) a move with two touches puts the scale in the interval and
    keeps the image point shown midway between the touches in place
    (the distance between the touches is [Math.sqrt] rounded to 53
    significant bits, the other operations are exact); the recorded
    attributes are not touched. *)
Theorem pinch_keeps_midpoint
    (rect : DOMRect) (touch1 touch2 : Touch) (st : ViewerState)
    (s px py u v d0 : Q) (s0 : num) :
  scale (view st) = Fin s -> in_range (Fin s) ->
  position st = mkPosition (Fin px) (Fin py) ->
  dataset (view st) = mkDataset (Some (Fin d0)) (Some s0) ->
  in_range s0 -> (0 <= d0)%Q ->
  ~ (d0 == 0 /\ pinch_distance touch1 touch2 == 0)%Q ->
  let mx := ((clientX touch1 + clientX touch2) / 2 - left rect)%Q in
  let my := ((clientY touch1 + clientY touch2) / 2 - top rect)%Q in
  is_fin (screen_x st (Fin u)) mx ->
  is_fin (screen_y st (Fin v)) my ->
  let st' := handleTouchZoomEvent rect [touch1; touch2] st in
  in_range (scale (view st'))
  /\ is_fin (screen_x st' (Fin u)) mx
  /\ is_fin (screen_y st' (Fin v)) my
  /\ dataset (view st') = dataset (view st).
Proof.
  intros Hscale Hs Hpos Hds Hs0 Hd0 Hnz. cbv zeta. intros Hx Hy.
  pose proof (handleTouchZoom_in_range touch1 touch2 (view st) d0 s0
                Hds Hs0 Hd0 Hnz) as Hns.
  destruct (in_range_Fin _ Hns) as (ns & Ens).
  assert (Hdsame : dataset (handleTouchZoom [touch1; touch2] (view st))
                   = dataset (view st)).
  { unfold handleTouchZoom. now rewrite Hds. }
  unfold screen_x, screen_y in Hx, Hy. rewrite Hscale, Hpos in Hx, Hy.
  cbn in Hx, Hy.
  unfold handleTouchZoomEvent, screen_x, screen_y.
  rewrite Hds. cbn [initialPinchDistance].
  cbn [setView setPosition view position].
  rewrite Ens, Hscale, Hpos.
  split; [rewrite <- Ens; exact Hns | ].
  assert (Hratio : div (Fin ns) (Fin s) = Fin (ns / s)).
  { unfold div. now rewrite (in_range_nonzero s Hs). }
  rewrite Hratio.
  change (sub (div (Fin (clientX touch1 + clientX touch2)) (Fin 2))
              (Fin (left rect)))
    with (Fin ((clientX touch1 + clientX touch2) / 2 - left rect)).
  change (sub (div (Fin (clientY touch1 + clientY touch2)) (Fin 2))
              (Fin (top rect)))
    with (Fin ((clientY touch1 + clientY touch2) / 2 - top rect)).
  rewrite <- and_assoc. split; [ | rewrite Hdsame; exact Hds].
  apply zoom_towards_fixes_point; try assumption.
  cbn in Hs. lra.
Qed.

Lemma wheel_keeps_cursor_point_witness :
  let st' := handleWheelEvent (Some sample_rect) (Fin 100) 400 300
                              initial_state in
  in_range (scale (view st'))
  /\ is_fin (screen_x st' (Fin 800)) (400 - left sample_rect)
  /\ is_fin (screen_y st' (Fin 600)) (300 - top sample_rect).
Proof.
  apply (wheel_keeps_cursor_point sample_rect (Fin 100) 400 300 initial_state
           0.5 0 0 800 600); cbn; try reflexivity; lra.
Defined.

Lemma pinch_keeps_midpoint_witness :
  let touch1 := mkTouch 100 300 in
  let touch2 := mkTouch 300 300 in
  let mx := ((clientX touch1 + clientX touch2) / 2 - left sample_rect)%Q in
  let my := ((clientY touch1 + clientY touch2) / 2 - top sample_rect)%Q in
  let st' := handleTouchZoomEvent sample_rect [touch1; touch2]
                                  pinching_state in
  in_range (scale (view st'))
  /\ is_fin (screen_x st' (Fin 400)) mx
  /\ is_fin (screen_y st' (Fin 600)) my
  /\ dataset (view st') = dataset (view pinching_state).
Proof.
  apply (pinch_keeps_midpoint sample_rect (mkTouch 100 300) (mkTouch 300 300)
           pinching_state 0.5 0 0 400 600 100 (Fin 0.5));
    cbn; try reflexivity; lra.
Defined.

(** While the pinch attributes are recorded, no touch start and no touch
    move changes them. *)
Lemma on_touch_keeps_dataset (rect : DOMRect) (st : ViewerState) (d0 : num)
    (e : touch_event) :
  initialPinchDistance (dataset (view st)) = Some d0 ->
  dataset (view (on_touch rect st e)) = dataset (view st).
Proof.
  intros Hd0.
  assert (Hzoom : forall touches st0,
            view st0 = view st ->
            dataset (view (handleTouchZoomEvent rect touches st0))
            = dataset (view st)).
  { intros touches st0 Hview.
    unfold handleTouchZoomEvent, handleTouchZoom. rewrite Hview, Hd0.
    destruct touches as [ | a [ | b [ | c rest]]]; cbn;
      rewrite ?Hview, ?Hd0; reflexivity. }
  destruct e as [touches | touches]; cbn [on_touch];
    unfold onTouchStart, onTouchMove; apply Hzoom.
  - unfold handleTouchStart.
    destruct touches as [ | a [ | b rest]]; reflexivity.
  - unfold handleTouchMove.
    destruct touches as [ | a [ | b rest]]; try reflexivity.
    destruct (isDragging st); reflexivity.
Qed.

Lemma touches_keep_dataset (rect : DOMRect) (earlier : list touch_event)
    (st : ViewerState) (d0 : num) :
  initialPinchDistance (dataset (view st)) = Some d0 ->
  dataset (view (fold_left (on_touch rect) earlier st)) = dataset (view st).
Proof.
  revert st. induction earlier as [ | e earlier IH]; intros st Hd0;
    [reflexivity | ].
  cbn [fold_left].
  pose proof (on_touch_keeps_dataset rect st d0 e Hd0) as He.
  rewrite (IH (on_touch rect st e)) by (now rewrite He).
  exact He.
Qed.

(** X13: a pinch does not compound and ends cleanly: while the pinch
    attributes are recorded, the scale after a two-touch move is the
    same whatever touch starts and touch moves, and however many of
    them, were handled before it, and these leave the attributes as
    recorded; and after [onTouchEnd] the next two-touch event only
    records distance and scale, leaving scale and position as they
    are. *)
Theorem pinch_does_not_compound
    (rect : DOMRect) (st : ViewerState) (d0 : num)
    (earlier : list touch_event) (touch1 touch2 : Touch) :
  initialPinchDistance (dataset (view st)) = Some d0 ->
  (let before := fold_left (on_touch rect) earlier st in
   scale (view (onTouchMove rect [touch1; touch2] before))
   = scale (view (onTouchMove rect [touch1; touch2] st))
   /\ dataset (view before) = dataset (view st))
  /\ let ended := onTouchEnd st in
     let next := handleTouchZoomEvent rect [touch1; touch2] ended in
     isDragging ended = false
     /\ dataset (view ended) = mkDataset None None
     /\ scale (view next) = scale (view st)
     /\ position next = position st
     /\ dataset (view next)
        = mkDataset (Some (Fin (pinch_distance touch1 touch2)))
                    (Some (scale (view st))).
Proof.
  intros Hd0. split.
  - cbv zeta.
    pose proof (touches_keep_dataset rect earlier st d0 Hd0) as Hds.
    split; [ | exact Hds].
    unfold onTouchMove, handleTouchMove, handleTouchZoomEvent.
    rewrite Hds, Hd0. cbn [setView setPosition view].
    unfold handleTouchZoom. now rewrite Hds, Hd0.
  - cbv zeta. unfold onTouchEnd, handleTouchZoomEnd, handleTouchEnd,
      handleTouchZoomEvent. cbn. repeat split.
Qed.

Lemma pinch_does_not_compound_witness :
  (let before :=
     fold_left (on_touch sample_rect)
       [TouchMove [mkTouch 100 300; mkTouch 500 300];
        TouchStart [mkTouch 100 300; mkTouch 500 300; mkTouch 50 50];
        TouchMove [mkTouch 100 300; mkTouch 250 400]]
       pinching_state in
   scale (view (onTouchMove sample_rect
                  [mkTouch 100 300; mkTouch 300 300] before))
   = scale (view (onTouchMove sample_rect
                    [mkTouch 100 300; mkTouch 300 300] pinching_state))
   /\ dataset (view before) = dataset (view pinching_state))
  /\ let ended := onTouchEnd pinching_state in
     let next := handleTouchZoomEvent sample_rect
                   [mkTouch 100 300; mkTouch 300 300] ended in
     isDragging ended = false
     /\ dataset (view ended) = mkDataset None None
     /\ scale (view next) = scale (view pinching_state)
     /\ position next = position pinching_state
     /\ dataset (view next)
        = mkDataset
            (Some (Fin (pinch_distance (mkTouch 100 300) (mkTouch 300 300))))
            (Some (scale (view pinching_state))).
Proof.
  exact (pinch_does_not_compound sample_rect pinching_state (Fin 100)
           [TouchMove [mkTouch 100 300; mkTouch 500 300];
            TouchStart [mkTouch 100 300; mkTouch 500 300; mkTouch 50 50];
            TouchMove [mkTouch 100 300; mkTouch 250 400]]
           (mkTouch 100 300) (mkTouch 300 300) eq_refl).
Defined.

(** X14: dragging with the mouse moves the image by the displacement of
    the mouse: after a press at [(a, b)] and moves ending at [(c, d)] the
    position is the one at the press plus [(c - a, d - b)], whatever
    moves came in between; the scale is untouched; moves before a press
    and after the release change nothing. *)
Theorem mouse_drag_translates
    (st : ViewerState) (px py a b c d c' d' : Q) :
  position st = mkPosition (Fin px) (Fin py) ->
  let pressed := handleMouseDown a b st in
  let moved := handleMouseMove c d pressed in
  is_fin (x (position moved)) (px + (c - a))
  /\ is_fin (y (position moved)) (py + (d - b))
  /\ view moved = view st
  /\ handleMouseMove c d (handleMouseMove c' d' pressed) = moved
  /\ handleMouseMove c' d' (handleMouseUp moved) = handleMouseUp moved
  /\ (isDragging st = false -> handleMouseMove c d st = st).
Proof.
  intros Hpos. cbv zeta.
  unfold handleMouseDown, handleMouseMove, handleMouseUp.
  cbn. rewrite Hpos. cbn.
  repeat split; try ring.
  intros H. now rewrite H.
Qed.

Lemma mouse_drag_translates_witness :
  let pressed := handleMouseDown 10 20 initial_state in
  let moved := handleMouseMove 110 70 pressed in
  is_fin (x (position moved)) (0 + (110 - 10))
  /\ is_fin (y (position moved)) (0 + (70 - 20))
  /\ view moved = view initial_state
  /\ handleMouseMove 110 70 (handleMouseMove 55 33 pressed) = moved
  /\ handleMouseMove 55 33 (handleMouseUp moved) = handleMouseUp moved
  /\ (isDragging initial_state = false ->
      handleMouseMove 110 70 initial_state = initial_state).
Proof.
  exact (mouse_drag_translates initial_state 0 0 10 20 110 70 55 33 eq_refl).
Defined.

(** X15: a one-finger touch pans like the mouse: after [onTouchStart]
    with one touch and [onTouchMove] with one touch the position is the
    one at the start plus the displacement of the finger, and scale and
    pinch attributes are untouched; a touch start with two fingers does
    not start a drag and, when no pinch is in progress, moves nothing. *)
Theorem one_finger_pan
    (rect : DOMRect) (st : ViewerState) (px py : Q) (start now : Touch)
    (other : Touch) :
  position st = mkPosition (Fin px) (Fin py) ->
  let st1 := onTouchStart rect [start] st in
  let st2 := onTouchMove rect [now] st1 in
  let two := onTouchStart rect [start; other] st in
  is_fin (x (position st2)) (px + (clientX now - clientX start))
  /\ is_fin (y (position st2)) (py + (clientY now - clientY start))
  /\ view st2 = view st
  /\ isDragging two = isDragging st
  /\ (initialPinchDistance (dataset (view st)) = None ->
      position two = position st /\ scale (view two) = scale (view st)).
Proof.
  intros Hpos. cbv zeta.
  assert (Hview : forall v : View, mkView (scale v) (dataset v) = v)
    by (intros []; reflexivity).
  split; [ | split; [ | split; [ | split]]].
  - unfold onTouchStart, onTouchMove, handleTouchStart, handleTouchMove,
      handleTouchZoomEvent, handleTouchZoom.
    cbn. rewrite Hpos. cbn. ring.
  - unfold onTouchStart, onTouchMove, handleTouchStart, handleTouchMove,
      handleTouchZoomEvent, handleTouchZoom.
    cbn. rewrite Hpos. cbn. ring.
  - unfold onTouchStart, onTouchMove, handleTouchStart, handleTouchMove,
      handleTouchZoomEvent, handleTouchZoom.
    cbn. destruct (view st); reflexivity.
  - unfold onTouchStart, handleTouchStart, handleTouchZoomEvent.
    cbn. destruct (initialPinchDistance (dataset (view st))); reflexivity.
  - intros Hnone.
    unfold onTouchStart, handleTouchStart, handleTouchZoomEvent,
      handleTouchZoom.
    cbn. rewrite Hnone. cbn. split; reflexivity.
Qed.

Lemma one_finger_pan_witness :
  let start := mkTouch 10 20 in
  let now := mkTouch 110 70 in
  let st1 := onTouchStart sample_rect [start] initial_state in
  let st2 := onTouchMove sample_rect [now] st1 in
  let two := onTouchStart sample_rect [start; mkTouch 50 50] initial_state in
  is_fin (x (position st2)) (0 + (clientX now - clientX start))
  /\ is_fin (y (position st2)) (0 + (clientY now - clientY start))
  /\ view st2 = view initial_state
  /\ isDragging two = isDragging initial_state
  /\ (initialPinchDistance (dataset (view initial_state)) = None ->
      position two = position initial_state
      /\ scale (view two) = scale (view initial_state)).
Proof.
  exact (one_finger_pan sample_rect initial_state 0 0 (mkTouch 10 20)
           (mkTouch 110 70) (mkTouch 50 50) eq_refl).
Defined.

(** X16: [focusOnPrediction] on an existing prediction sets the scale to
    0.5, selects the prediction and shows the centre of its box at the
    centre of the container; for an index past the end of the list, or
    without a container, it changes nothing. *)
Theorem focus_centres_box
    (predictions : list Prediction) (c : DOMRect) (index : nat)
    (prediction : Prediction) (st : ViewerState) :
  nth_error predictions index = Some prediction ->
  let st' := focusOnPrediction predictions (Some c) index st in
  scale (view st') = Fin 0.5
  /\ selectedPrediction st' = Some index
  /\ is_fin (screen_x st' (Fin ((bx1 prediction + bx2 prediction) / 2)))
            (width c / 2)
  /\ is_fin (screen_y st' (Fin ((by1 prediction + by2 prediction) / 2)))
            (height c / 2)
  /\ (forall i, (List.length predictions <= i)%nat ->
                focusOnPrediction predictions (Some c) i st = st)
  /\ focusOnPrediction predictions None index st = st.
Proof.
  intros Hnth. cbv zeta. unfold focusOnPrediction, screen_x, screen_y.
  rewrite Hnth. cbn.
  split; [reflexivity | ]. split; [reflexivity | ].
  split; [field | ]. split; [field | ].
  split; [ | reflexivity].
  intros i Hi. apply nth_error_None in Hi. now rewrite Hi.
Qed.

Lemma focus_centres_box_witness :
  let prediction := mkPrediction 600 600 700 685 in
  let st' := focusOnPrediction sample_predictions (Some sample_rect) 1
                               initial_state in
  scale (view st') = Fin 0.5
  /\ selectedPrediction st' = Some 1%nat
  /\ is_fin (screen_x st' (Fin ((bx1 prediction + bx2 prediction) / 2)))
            (width sample_rect / 2)
  /\ is_fin (screen_y st' (Fin ((by1 prediction + by2 prediction) / 2)))
            (height sample_rect / 2)
  /\ (forall i, (List.length sample_predictions <= i)%nat ->
                focusOnPrediction sample_predictions (Some sample_rect) i
                                  initial_state = initial_state)
  /\ focusOnPrediction sample_predictions None 1 initial_state
     = initial_state.
Proof.
  exact (focus_centres_box sample_predictions sample_rect 1
           (mkPrediction 600 600 700 685) initial_state eq_refl).
Defined.

Lemma Qeq_bool_pos (q : Q) : (0 < q)%Q -> Qeq_bool q 0 = false.
Proof.
  intros H. destruct (Qeq_bool q 0) eqn:E; [ | reflexivity].
  apply Qeq_bool_iff in E. lra.
Qed.

Lemma Qdiv_pos (a b : Q) : (0 < a)%Q -> (0 < b)%Q -> (0 < a / b)%Q.
Proof.
  intros Ha Hb. apply Qlt_shift_div_l; [assumption | ]. lra.
Qed.

(** The scale of the minimap for an image with positive sides: a
    positive number at which the image fits a square of 200, and the
    quotient 200 / width for an image at least as wide as high. *)
Lemma minimapScale_fits (imageWidth imageHeight : Q) :
  (0 < imageWidth)%Q -> (0 < imageHeight)%Q ->
  exists m,
    minimapScale imageWidth imageHeight = Fin m
    /\ (0 < m)%Q
    /\ (m * imageWidth <= 200)%Q /\ (m * imageHeight <= 200)%Q
    /\ ((imageHeight <= imageWidth)%Q -> (m == 200 / imageWidth)%Q).
Proof.
  intros HW HH. unfold minimapScale, div, minimapSize.
  rewrite (Qeq_bool_pos _ HW), (Qeq_bool_pos _ HH). cbn [Math_min].
  pose proof (Qdiv_pos 200 imageWidth ltac:(lra) HW) as Ha.
  pose proof (Qdiv_pos 200 imageHeight ltac:(lra) HH) as Hb.
  assert (Ea : (200 / imageWidth * imageWidth == 200)%Q) by (field; lra).
  assert (Eb : (200 / imageHeight * imageHeight == 200)%Q) by (field; lra).
  remember (200 / imageWidth)%Q as a eqn:Da.
  remember (200 / imageHeight)%Q as b eqn:Db.
  clear Da Db.
  eexists. split; [reflexivity | ].
  destruct (Qle_bool a b) eqn:Hle.
  - apply Qle_bool_iff in Hle.
    split; [assumption | ]. split; [lra | ]. split; [nra | ].
    intros _. reflexivity.
  - assert (Hgt : ~ (a <= b)%Q) by (rewrite <- Qle_bool_iff; congruence).
    apply Qnot_le_lt in Hgt.
    split; [assumption | ]. split; [nra | ]. split; [lra | ].
    intros Hland. exfalso. nra.
Qed.

(** X17: a click on the minimap of an image with positive sides, at a
    finite scale, centres the viewport on the clicked point: the image
    coordinates computed from the click are shown at the centre of the
    container and the scale is untouched; for an image at least as wide
    as high these coordinates are those of the point the minimap (200
    wide) draws under the click.  Without container or minimap element
    the click changes nothing. *)
Theorem minimap_click_centres
    (c m : DOMRect) (imageWidth imageHeight cx cy s : Q) (st : ViewerState) :
  (0 < imageWidth)%Q -> (0 < imageHeight)%Q ->
  scale (view st) = Fin s ->
  let st' := handleMinimapClick (Some c) (Some m) imageWidth imageHeight
                                cx cy st in
  exists u v,
    is_fin (screen_x st' (Fin u)) (width c / 2)
    /\ is_fin (screen_y st' (Fin v)) (height c / 2)
    /\ view st' = view st
    /\ ((imageHeight <= imageWidth)%Q ->
        (u * (200 / imageWidth) == cx - left m
         /\ v * (200 / imageWidth) == cy - top m)%Q)
    /\ handleMinimapClick None (Some m) imageWidth imageHeight cx cy st = st
    /\ handleMinimapClick (Some c) None imageWidth imageHeight cx cy st = st.
Proof.
  intros HW HH Hscale. cbv zeta.
  destruct (minimapScale_fits imageWidth imageHeight HW HH)
    as (ms & Ems & Hms & _ & _ & Hland).
  exists ((cx - left m) / ms)%Q, ((cy - top m) / ms)%Q.
  unfold handleMinimapClick, screen_x, screen_y. rewrite Ems.
  cbn [setPosition view position x y]. rewrite Hscale.
  unfold div. rewrite (Qeq_bool_pos ms Hms). cbn.
  split; [field; lra | ]. split; [field; lra | ].
  split; [reflexivity | ]. split; [ | split; reflexivity].
  intros Hl. specialize (Hland Hl). rewrite <- Hland.
  split; field; lra.
Qed.

Lemma minimap_click_centres_witness :
  let st' := handleMinimapClick (Some sample_rect) (Some sample_minimap)
                                1024 768 680 125 initial_state in
  exists u v,
    is_fin (screen_x st' (Fin u)) (width sample_rect / 2)
    /\ is_fin (screen_y st' (Fin v)) (height sample_rect / 2)
    /\ view st' = view initial_state
    /\ ((768 <= 1024)%Q ->
        (u * (200 / 1024) == 680 - left sample_minimap
         /\ v * (200 / 1024) == 125 - top sample_minimap)%Q)
    /\ handleMinimapClick None (Some sample_minimap) 1024 768 680 125
                          initial_state = initial_state
    /\ handleMinimapClick (Some sample_rect) None 1024 768 680 125
                          initial_state = initial_state.
Proof.
  apply (minimap_click_centres sample_rect sample_minimap 1024 768 680 125
           0.5 initial_state); [lra | lra | reflexivity].
Defined.

(** X18: [fitToScreen], for an image with positive sides in a container
    with non-negative sides, resets the position and sets a scale of at
    most 1 at which the whole image fits the container, and the largest
    such scale (it is 1 or one side fills the container).  The scale is
    not clamped: when the container is narrower than a tenth of the
    image, it falls below the zoom interval.  Without container or image
    element nothing changes. *)
Theorem fitToScreen_fits
    (c : DOMRect) (imageWidth imageHeight : Q) (st : ViewerState) :
  (0 < imageWidth)%Q -> (0 < imageHeight)%Q ->
  (0 <= width c)%Q -> (0 <= height c)%Q ->
  let st' := fitToScreen (Some c) true imageWidth imageHeight st in
  exists ns,
    scale (view st') = Fin ns
    /\ position st' = mkPosition (Fin 0) (Fin 0)
    /\ (0 <= ns /\ ns <= 1)%Q
    /\ (ns * imageWidth <= width c /\ ns * imageHeight <= height c)%Q
    /\ (ns == 1 \/ ns * imageWidth == width c
        \/ ns * imageHeight == height c)%Q
    /\ ((width c < 0.1 * imageWidth)%Q -> ~ in_range (Fin ns))
    /\ fitToScreen None true imageWidth imageHeight st = st
    /\ fitToScreen (Some c) false imageWidth imageHeight st = st.
Proof.
  intros HW HH Hw Hh. cbv zeta. unfold fitToScreen, div.
  rewrite (Qeq_bool_pos _ HW), (Qeq_bool_pos _ HH).
  cbn [Math_min setScale setPosition view position scale].
  assert (Ea : (width c / imageWidth * imageWidth == width c)%Q)
    by (field; lra).
  assert (Eb : (height c / imageHeight * imageHeight == height c)%Q)
    by (field; lra).
  assert (Ha : (0 <= width c / imageWidth)%Q).
  { apply Qle_shift_div_l; [assumption | lra]. }
  assert (Hb : (0 <= height c / imageHeight)%Q).
  { apply Qle_shift_div_l; [assumption | lra]. }
  remember (width c / imageWidth)%Q as a eqn:Da.
  remember (height c / imageHeight)%Q as b eqn:Db.
  clear Da Db.
  eexists. split; [reflexivity | ]. split; [reflexivity | ].
  cbn [in_range].
  destruct (Qle_bool a b) eqn:Hab;
    [ apply Qle_bool_iff in Hab
    | assert (~ (a <= b)%Q) by (rewrite <- Qle_bool_iff; congruence);
      clear Hab ];
    qle_cases;
    repeat match goal with
    | H : ~ (_ <= _)%Q |- _ => apply Qnot_le_lt in H
    end;
    repeat split; try reflexivity; try nra;
    try (left; reflexivity);
    try (right; left; lra); try (right; right; lra);
    try (intros Hnarrow [Hlo _]; nra).
Qed.

Lemma fitToScreen_fits_witness :
  let st' := fitToScreen (Some sample_rect) true 1024 768 initial_state in
  exists ns,
    scale (view st') = Fin ns
    /\ position st' = mkPosition (Fin 0) (Fin 0)
    /\ (0 <= ns /\ ns <= 1)%Q
    /\ (ns * 1024 <= width sample_rect /\ ns * 768 <= height sample_rect)%Q
    /\ (ns == 1 \/ ns * 1024 == width sample_rect
        \/ ns * 768 == height sample_rect)%Q
    /\ ((width sample_rect < 0.1 * 1024)%Q -> ~ in_range (Fin ns))
    /\ fitToScreen None true 1024 768 initial_state = initial_state
    /\ fitToScreen (Some sample_rect) false 1024 768 initial_state
       = initial_state.
Proof.
  apply (fitToScreen_fits sample_rect 1024 768 initial_state); cbn; lra.
Defined.

(** X19: the viewport indicator of the minimap, for a scale in [0.1, 8],
    a finite position and an image with positive sides, has finite,
    non-negative corner coordinates and a width and height of at most
    200; without a container it is the empty rectangle at the origin. *)
Theorem viewport_indicator_bounds
    (c : DOMRect) (imageWidth imageHeight s px py : Q) (st : ViewerState) :
  (0 < imageWidth)%Q -> (0 < imageHeight)%Q ->
  scale (view st) = Fin s -> in_range (Fin s) ->
  position st = mkPosition (Fin px) (Fin py) ->
  exists vx vy vw vh,
    getViewportRect (Some c) imageWidth imageHeight st
    = (Fin vx, Fin vy, Fin vw, Fin vh)
    /\ (0 <= vx /\ 0 <= vy /\ vw <= 200 /\ vh <= 200)%Q
    /\ getViewportRect None imageWidth imageHeight st
       = (Fin 0, Fin 0, Fin 0, Fin 0).
Proof.
  intros HW HH Hscale Hs Hpos.
  destruct (minimapScale_fits imageWidth imageHeight HW HH)
    as (ms & Ems & _).
  unfold getViewportRect. rewrite Ems, Hscale, Hpos.
  cbn [x y neg]. unfold div. rewrite (in_range_nonzero s Hs).
  cbn [mul Math_max Math_min]. unfold minimapSize.
  do 4 eexists. split; [reflexivity | ]. split; [ | reflexivity].
  qle_cases; repeat split; lra.
Qed.

Lemma viewport_indicator_bounds_witness :
  exists vx vy vw vh,
    getViewportRect (Some sample_rect) 1024 768 initial_state
    = (Fin vx, Fin vy, Fin vw, Fin vh)
    /\ (0 <= vx /\ 0 <= vy /\ vw <= 200 /\ vh <= 200)%Q
    /\ getViewportRect None 1024 768 initial_state
       = (Fin 0, Fin 0, Fin 0, Fin 0).
Proof.
  apply (viewport_indicator_bounds sample_rect 1024 768 0.5 0 0
           initial_state); cbn; try reflexivity; lra.
Defined.

(** X20: the keyboard shortcuts: a key typed in an input field or a key
    without a shortcut changes nothing; with a finite position,
    ArrowLeft then ArrowRight, and ArrowUp then ArrowDown, bring the
    position back; 'm' typed twice restores the minimap switch; and '+',
    '=' and '-' keep a scale of [0.1, 8] in that interval. *)
Theorem keyboard_shortcuts
    (container : option DOMRect) (image : bool) (imageWidth imageHeight : Q)
    (st : ViewerState) (px py : Q) (key : string) :
  position st = mkPosition (Fin px) (Fin py) ->
  in_range (scale (view st)) ->
  let press := handleKeyDown container image imageWidth imageHeight false in
  handleKeyDown container image imageWidth imageHeight true key st = st
  /\ (~ In key ["+"; "="; "-"; "0"; "f"; "F"; "m"; "M"; "ArrowLeft";
                "ArrowRight"; "ArrowUp"; "ArrowDown"] ->
      press key st = st)
  /\ is_fin (x (position (press "ArrowRight" (press "ArrowLeft" st)))) px
  /\ is_fin (y (position (press "ArrowDown" (press "ArrowUp" st)))) py
  /\ showMinimap (press "m" (press "m" st)) = showMinimap st
  /\ in_range (scale (view (press "+" st)))
  /\ in_range (scale (view (press "=" st)))
  /\ in_range (scale (view (press "-" st))).
Proof.
  intros Hpos Hs. cbv zeta.
  split; [reflexivity | ].
  split.
  { intros Hnot. unfold handleKeyDown.
    repeat match goal with
    | |- context [String.eqb key ?k] =>
        destruct (String.eqb_spec key k) as [-> | ?];
        [exfalso; apply Hnot; cbn; tauto | ]
    end.
    reflexivity. }
  unfold handleKeyDown. cbn. rewrite Hpos. cbn.
  split; [ring | ]. split; [ring | ].
  split; [apply negb_involutive | ].
  split; [now apply zoomIn_in_range | ].
  split; [now apply zoomIn_in_range | now apply zoomOut_in_range].
Qed.

Lemma keyboard_shortcuts_witness :
  let press := handleKeyDown (Some sample_rect) true 1024 768 false in
  handleKeyDown (Some sample_rect) true 1024 768 true "Escape" initial_state
  = initial_state
  /\ (~ In "Escape" ["+"; "="; "-"; "0"; "f"; "F"; "m"; "M"; "ArrowLeft";
                     "ArrowRight"; "ArrowUp"; "ArrowDown"] ->
      press "Escape" initial_state = initial_state)
  /\ is_fin (x (position (press "ArrowRight"
                            (press "ArrowLeft" initial_state)))) 0
  /\ is_fin (y (position (press "ArrowDown"
                            (press "ArrowUp" initial_state)))) 0
  /\ showMinimap (press "m" (press "m" initial_state))
     = showMinimap initial_state
  /\ in_range (scale (view (press "+" initial_state)))
  /\ in_range (scale (view (press "=" initial_state)))
  /\ in_range (scale (view (press "-" initial_state))).
Proof.
  apply (keyboard_shortcuts (Some sample_rect) true 1024 768 initial_state
           0 0 "Escape"); [reflexivity | cbn; lra].
Defined.

End PanFacts.
